(** * blurr: the Transformer layer ([blurr/core/transformer.py])

    A shallow embedding of [TransformerSchema] and [Transformer].  Python
    objects that are shared by reference (contexts, data groups, the store)
    live in an explicit heap; methods are computations in a state-and-exception
    monad over that heap. *)

From Stdlib Require Import ZArith.
From stdpp Require Import base option strings list gmap.

Open Scope string_scope.
Open Scope list_scope.
Set Warnings "-register-all".

(** ** Python values and exceptions *)

Definition loc := nat.

Inductive PyError :=
| KeyError (key : string)
| TypeError
| AttributeError (name : string)
| ImportError (module : string)
| UnknownTypeError (type_name : string)
| MissingAttributeError (message : string).

Inductive Result (A : Type) :=
| Ok (a : A)
| Raise (e : PyError).
Arguments Ok {A} a.
Arguments Raise {A} e.

(** The in-memory attribute mapping handed over by the specification source
    (a parsed YAML document). *)
Inductive SpecValue :=
| SNone
| SStr (s : string)
| SInt (n : Z)
| SSeq (items : list SpecValue)
| SMap (entries : list (string * SpecValue)).

(** ** Ordered dictionaries ([dict] keeps insertion order) *)

Module Dict.
Section Dict.
Context {V : Type}.

Fixpoint get (k : string) (d : list (string * V)) : option V :=
  match d with
  | [] => None
  | (k', v) :: d' => if String.eqb k k' then Some v else get k d'
  end.

Definition contains (k : string) (d : list (string * V)) : bool :=
  match get k d with Some _ => true | None => false end.

(** [d[k] = v]: an existing key keeps its position, a new key goes last. *)
Fixpoint set (k : string) (v : V) (d : list (string * V)) : list (string * V) :=
  match d with
  | [] => [(k, v)]
  | (k', v') :: d' =>
      if String.eqb k k' then (k', v) :: d' else (k', v') :: set k v d'
  end.

Definition keys (d : list (string * V)) : list string := map fst d.
Definition values (d : list (string * V)) : list V := map snd d.
End Dict.
End Dict.

(** ** Heap objects *)

Record PyModule := { module_name : string; module_attrs : list (string * string) }.

Inductive Value :=
| VStr (s : string)
| VModule (m : PyModule)
| VObject (qualified_name : string)
| VDataGroup (l : loc).

(** Modelled from the spec: [EvaluationContext] (blurr/core/evaluation.py is
    not part of the sources at hand).  A chain of a global and a local scope;
    each scope is a [Context] object of its own, held by reference. *)
Record EvaluationContext := { global_context : loc; local_context : loc }.

(** Modelled from the spec: the schema of a nested item (a data group or a
    store; blurr/core/base.py is not part of the sources at hand): its name,
    its declared type and its specification node. *)
Record ItemSchema := { item_name : string; item_type : string; item_spec : SpecValue }.

Inductive KeyType := DIMENSION | TIMESTAMP.

Global Instance KeyType_eq_dec : EqDecision KeyType.
Proof. solve_decision. Defined.

Global Instance KeyType_countable : Countable KeyType.
Proof.
  refine (inj_countable' (fun k => match k with DIMENSION => 0 | TIMESTAMP => 1 end)
                         (fun n => match n with 0 => DIMENSION | _ => TIMESTAMP end) _).
  by intros [].
Defined.

(** Modelled from the spec: [Key], the address of a persisted snapshot:
    key kind, identity, group name and sub-keys. *)
Definition Key : Type := KeyType * string * string * list string.

Definition Snapshot : Type := list (string * SpecValue).

(** Modelled from the spec: the runtime [DataGroup] (blurr/core/data_group.py
    is not part of the sources at hand): the schema entry it was built from,
    the identity, a reference to the evaluation context it was handed, its
    current field values, the sub-keys of its window and the closed flag. *)
Record DataGroup := {
  dg_schema : ItemSchema;
  dg_identity : string;
  dg_context : EvaluationContext;
  dg_fields : Snapshot;
  dg_sub_keys : list string;
  dg_closed : bool
}.

Inductive Event := Finalize (l : loc).

Record Heap := {
  contexts : list (gmap string Value);
  data_groups : list DataGroup;
  store : gmap Key Snapshot;
  trace : list Event
}.

Definition empty_heap : Heap :=
  {| contexts := []; data_groups := []; store := ∅; trace := [] |}.

(** ** The state-and-exception monad *)

Definition M (A : Type) : Type := Heap -> Result A * Heap.

Global Instance M_ret : MRet M := fun A a h => (Ok a, h).
Global Instance M_bind : MBind M := fun A B f m h =>
  match m h with
  | (Ok a, h') => f a h'
  | (Raise e, h') => (Raise e, h')
  end.

Definition raise {A} (e : PyError) : M A := fun h => (Raise e, h).

Definition lift_option {A} (e : PyError) (o : option A) : M A :=
  match o with Some a => mret a | None => raise e end.

(** [for x in xs: body x] *)
Fixpoint for_each {A} (body : A -> M unit) (xs : list A) : M unit :=
  match xs with
  | [] => mret tt
  | x :: xs' => body x ≫= fun _ => for_each body xs'
  end.

(** ** Python operations on specification values *)

(** [value[key]] with a string key: only a mapping can be subscripted so. *)
Definition subscript (value : SpecValue) (key : string) : M SpecValue :=
  match value with
  | SMap entries => lift_option (KeyError key) (Dict.get key entries)
  | _ => raise TypeError
  end.

(** [iter(value)]: a sequence yields its items, a mapping its keys, a string
    its characters; [None] and numbers are not iterable. *)
Definition py_iter (value : SpecValue) : M (list SpecValue) :=
  match value with
  | SSeq items => mret items
  | SMap entries => mret (map (fun kv => SStr (fst kv)) entries)
  | SStr s => mret (map (fun c => SStr (String c EmptyString)) (String.list_ascii_of_string s))
  | SNone | SInt _ => raise TypeError
  end.

(** A value that the code goes on to use as a name. *)
Definition as_str (value : SpecValue) : M string :=
  match value with
  | SStr s => mret s
  | _ => raise TypeError
  end.

(** ** EvaluationContext *)

(** A newly created [Context] object gets a fresh location. *)
Definition new_context : M loc := fun h =>
  (Ok (length (contexts h)),
   {| contexts := contexts h ++ [∅]; data_groups := data_groups h;
      store := store h; trace := trace h |}).

(** Modelled from the spec: [EvaluationContext()] creates a fresh global and a
    fresh local scope. *)
Definition EvaluationContext_new : M EvaluationContext :=
  g ← new_context; l ← new_context;
  mret {| global_context := g; local_context := l |}.

Definition update_context (c : loc) (f : gmap string Value -> gmap string Value) : M unit :=
  fun h =>
    (Ok tt,
     {| contexts := alter f c (contexts h); data_groups := data_groups h;
        store := store h; trace := trace h |}).

(** Modelled from the spec: [bind_global(name, value)] writes into the root
    scope ([EvaluationContext.global_add] in the code). *)
Definition global_add (ctx : EvaluationContext) (name : string) (value : Value) : M unit :=
  update_context (global_context ctx) (insert name value).

(** Modelled from the spec: [merge] makes every name bound in the merged-in
    mapping resolvable through the receiving scope; the entries are exposed
    by reference (here: the data groups' locations). *)
Definition Context_merge (c : loc) (items : list (string * loc)) : M unit :=
  update_context c
    (fun scope => fold_left (fun acc kv => <[fst kv := VDataGroup (snd kv)]> acc) items scope).

(** Modelled from the spec: [resolve(name)]: local scope first, then the
    global one. *)
Definition resolve (ctx : EvaluationContext) (name : string) (h : Heap) : option Value :=
  match contexts h !! local_context ctx ≫= (.!! name) with
  | Some v => Some v
  | None => contexts h !! global_context ctx ≫= (.!! name)
  end.

(** Resolution through the root (global) scope alone. *)
Definition resolve_root (ctx : EvaluationContext) (name : string) (h : Heap) : option Value :=
  contexts h !! global_context ctx ≫= (.!! name).

(** ** Collaborators outside [transformer.py] *)

(** Modelled from the spec: [SchemaLoader] (blurr/core/schema_loader.py); only
    [get_nested_schema_object] is called from here. *)
Record SchemaLoader := {
  get_nested_schema_object : string -> string -> Result ItemSchema
}.

(** Modelled from the spec: what [BaseSchemaCollection.__init__] leaves on
    the object: the specification mapping, the name and the nested schemas by
    name, in declaration order. *)
Record BaseSchemaCollection := {
  base_spec : list (string * SpecValue);
  base_name : string;
  base_nested_schema : list (string * ItemSchema)
}.

Definition lift_result {A} (r : Result A) : M A := fun h => (r, h).

Definition ATTRIBUTE_NAME := "Name".
Definition ATTRIBUTE_VERSION := "Version".
Definition ATTRIBUTE_DESCRIPTION := "Description".
Definition ATTRIBUTE_STORES := "Stores".
Definition ATTRIBUTE_DATA_GROUPS := "DataGroups".
Definition ATTRIBUTE_IMPORT := "Import".
Definition ATTRIBUTE_IMPORT_MODULE := "Module".
Definition ATTRIBUTE_IMPORT_IDENTIFIER := "Identifier".

Record TransformerSchema := {
  fully_qualified_name : string;
  schema_loader : SchemaLoader;
  _spec : list (string * SpecValue);
  schema_name : string;
  nested_schema : list (string * ItemSchema);
  version : SpecValue;
  description : SpecValue;
  stores : list (string * ItemSchema);
  import_list : SpecValue;
  schema_context : EvaluationContext
}.

Record Transformer := {
  _schema : TransformerSchema;
  _evaluation_context : EvaluationContext;
  _data_groups : list (string * loc);
  _identity : string
}.

(** Modelled from the spec: the attributes a runtime item gets from
    [BaseItemCollection] (blurr/core/base.py is not part of the sources at
    hand): its schema and its evaluation context. *)
Record BaseItemCollection := {
  base_schema : TransformerSchema;
  base_evaluation_context : EvaluationContext
}.

(** Modelled from the spec: [BaseItemCollection.__init__(schema,
    evaluation_context)] keeps the schema and the very context object it is
    given: the item holds a reference into the shared evaluation context. *)
Definition BaseItemCollection_init (schema : TransformerSchema)
    (evaluation_context : EvaluationContext) : BaseItemCollection :=
  {| base_schema := schema; base_evaluation_context := evaluation_context |}.

(** [getattr(module_obj, identifier)] *)
Definition module_getattr (module_obj : PyModule) (identifier : string) : M Value :=
  lift_option (AttributeError identifier)
    (VObject <$> Dict.get identifier (module_attrs module_obj)).

(** [key in value], after [value] has been subscripted with a string. *)
Definition spec_contains (key : string) (value : SpecValue) : M bool :=
  match value with
  | SMap entries => mret (Dict.contains key entries)
  | _ => raise TypeError
  end.

Section Blurr.

(** [TypeLoader.import_by_full_name] and [TypeLoader.load_item]
    (blurr/core/loader.py), and the base class constructor
    [BaseSchemaCollection.__init__] (blurr/core/base.py). *)
Variable import_by_full_name : string -> Result PyModule.
Variable load_item :
  string -> Result (ItemSchema -> string -> EvaluationContext -> DataGroup).
Variable BaseSchemaCollection_init :
  string -> SchemaLoader -> string -> Result BaseSchemaCollection.

(** *** TransformerSchema *)

(** The body of [for identifier in custom_import['Identifier']]. *)
Definition import_identifier (ctx : EvaluationContext) (module_obj : PyModule)
    (identifier : SpecValue) : M unit :=
  id ← as_str identifier;
  attr ← module_getattr module_obj id;
  global_add ctx id attr.

(** The loop of [import_modules]; the [return] in the branch without an
    identifier list leaves the whole method. *)
Fixpoint import_loop (ctx : EvaluationContext) (entries : list SpecValue) : M unit :=
  match entries with
  | [] => mret tt
  | custom_import :: rest =>
      module ← subscript custom_import ATTRIBUTE_IMPORT_MODULE ≫= as_str;
      module_obj ← lift_result (import_by_full_name module);
      has_identifier ← spec_contains ATTRIBUTE_IMPORT_IDENTIFIER custom_import;
      if negb has_identifier then
        global_add ctx module (VModule module_obj)
      else
        identifiers ← subscript custom_import ATTRIBUTE_IMPORT_IDENTIFIER ≫= py_iter;
        for_each (import_identifier ctx module_obj) identifiers;;
        import_loop ctx rest
  end.

(** [TransformerSchema.import_modules] *)
Definition import_modules (import_list : SpecValue) (ctx : EvaluationContext) : M unit :=
  match import_list with
  | SNone => mret tt
  | _ => py_iter import_list ≫= import_loop ctx
  end.

(** The dict comprehension that fills [self.stores]. *)
Fixpoint load_stores (ldr : SchemaLoader) (fqn : string) (specs : list SpecValue)
    (acc : list (string * ItemSchema)) : M (list (string * ItemSchema)) :=
  match specs with
  | [] => mret acc
  | schema_spec :: rest =>
      key ← subscript schema_spec ATTRIBUTE_NAME ≫= as_str;
      obj ← lift_result (get_nested_schema_object ldr fqn key);
      load_stores ldr fqn rest (Dict.set key obj acc)
  end.

(** [spec[key] if key in spec else None] *)
Definition optional_attribute (spec : list (string * SpecValue)) (key : string) : M SpecValue :=
  if Dict.contains key spec then subscript (SMap spec) key else mret SNone.

(** [TransformerSchema.__init__] *)
Definition TransformerSchema_init (fqn : string) (ldr : SchemaLoader) : M TransformerSchema :=
  base ← lift_result (BaseSchemaCollection_init fqn ldr ATTRIBUTE_DATA_GROUPS);
  let spec := base_spec base in
  version ← subscript (SMap spec) ATTRIBUTE_VERSION;
  description ← optional_attribute spec ATTRIBUTE_DESCRIPTION;
  store_specs ← py_iter (default (SSeq []) (Dict.get ATTRIBUTE_STORES spec));
  stores ← load_stores ldr fqn store_specs [];
  import_list ← optional_attribute spec ATTRIBUTE_IMPORT;
  ctx ← EvaluationContext_new;
  import_modules import_list ctx;;
  mret {| fully_qualified_name := fqn; schema_loader := ldr; _spec := spec;
          schema_name := base_name base;
          nested_schema := base_nested_schema base;
          version := version; description := description; stores := stores;
          import_list := import_list; schema_context := ctx |}.

(** *** Transformer *)

(** A newly constructed data group object gets a fresh location. *)
Definition new_data_group (dg : DataGroup) : M loc := fun h =>
  (Ok (length (data_groups h)),
   {| contexts := contexts h; data_groups := data_groups h ++ [dg];
      store := store h; trace := trace h |}).

(** The dict comprehension that fills [self._data_groups]. *)
Fixpoint build_data_groups (identity : string) (ctx : EvaluationContext)
    (items : list (string * ItemSchema)) (acc : list (string * loc))
    : M (list (string * loc)) :=
  match items with
  | [] => mret acc
  | (name, item_schema) :: rest =>
      ctor ← lift_result (load_item (item_type item_schema));
      l ← new_data_group (ctor item_schema identity ctx);
      build_data_groups identity ctx rest (Dict.set name l acc)
  end.

(** [Transformer.__init__] *)
Definition Transformer_init (schema : TransformerSchema) (identity : string) : M Transformer :=
  let base := BaseItemCollection_init schema (schema_context schema) in
  dgs ← build_data_groups identity (base_evaluation_context base) (nested_schema schema) [];
  global_add (base_evaluation_context base) "identity" (VStr identity);;
  Context_merge (global_context (base_evaluation_context base)) dgs;;
  mret {| _schema := base_schema base;
          _evaluation_context := base_evaluation_context base;
          _data_groups := dgs; _identity := identity |}.

(** [Transformer._nested_items] *)
Definition _nested_items (self : Transformer) : list (string * loc) := _data_groups self.

(** Modelled from the spec: [_name], the name the item's schema declares
    (an attribute of the base class). *)
Definition _name (self : Transformer) : string := schema_name (_schema self).

(** Modelled from the spec: the key a data group persists its snapshot
    under. *)
Definition key_of (dg : DataGroup) : Key :=
  (DIMENSION, dg_identity dg, item_name (dg_schema dg), dg_sub_keys dg).

(** Modelled from the spec: the data group marked closed. *)
Definition close (dg : DataGroup) : DataGroup :=
  {| dg_schema := dg_schema dg; dg_identity := dg_identity dg;
     dg_context := dg_context dg; dg_fields := dg_fields dg;
     dg_sub_keys := dg_sub_keys dg; dg_closed := true |}.

(** Modelled from the spec: [DataGroup.finalize] persists the final
    snapshot of a live data group to the store and marks it closed; once
    closed, a further call does nothing.  Each call is recorded in the
    trace. *)
Definition DataGroup_finalize (l : loc) : M unit := fun h =>
  let called := trace h ++ [Finalize l] in
  match data_groups h !! l with
  | Some dg =>
      if dg_closed dg then
        (Ok tt, {| contexts := contexts h; data_groups := data_groups h;
                   store := store h; trace := called |})
      else
        (Ok tt, {| contexts := contexts h;
                   data_groups := <[l := close dg]> (data_groups h);
                   store := <[key_of dg := dg_fields dg]> (store h);
                   trace := called |})
  | None =>
      (Ok tt, {| contexts := contexts h; data_groups := data_groups h;
                 store := store h; trace := called |})
  end.

(** [Transformer.finalize] *)
Definition Transformer_finalize (self : Transformer) : M unit :=
  for_each DataGroup_finalize (Dict.values (_nested_items self)).

(** [Transformer.__getitem__] *)
Definition Transformer_getitem (self : Transformer) (item : string) : M loc :=
  if negb (Dict.contains item (_nested_items self)) then
    raise (MissingAttributeError (item +:+ " not defined in " +:+ _name self))
  else
    lift_option (KeyError item) (Dict.get item (_nested_items self)).

(** [Transformer.__getattr__] *)
Definition Transformer_getattr (self : Transformer) (item : string) : M loc :=
  Transformer_getitem self item.

End Blurr.

(** ** Attribute access *)

(** What [self.name] evaluates to: Python looks [name] up as a regular
    attribute first and calls [__getattr__] only when that fails. *)
Inductive Attribute :=
| RegularAttribute (name : string)
| NestedItem (l : loc).

(** The attributes [transformer.py] itself gives a [Transformer]; [inherited]
    are those of its base classes. *)
Definition regular_attributes (inherited : list string) : list string :=
  ["_data_groups"; "_identity"; "_nested_items"; "finalize";
   "__init__"; "__getattr__"; "__getitem__"] ++ inherited.

(** [self.name] *)
Definition attribute_access (inherited : list string) (self : Transformer) (name : string)
    : M Attribute :=
  if bool_decide (name ∈ regular_attributes inherited) then
    mret (RegularAttribute name)
  else
    l ← Transformer_getattr self name; mret (NestedItem l).

(** ** What the constructor is expected to build *)

(** The data groups the type registry constructs for the nested schema
    entries, in declaration order; fails where [load_item] does. *)
Fixpoint construct_all
    (load_item : string -> Result (ItemSchema -> string -> EvaluationContext -> DataGroup))
    (identity : string) (ctx : EvaluationContext) (items : list (string * ItemSchema))
    : Result (list DataGroup) :=
  match items with
  | [] => Ok []
  | (_, item_schema) :: rest =>
      match load_item (item_type item_schema) with
      | Ok ctor =>
          match construct_all load_item identity ctx rest with
          | Ok built => Ok (ctor item_schema identity ctx :: built)
          | Raise e => Raise e
          end
      | Raise e => Raise e
      end
  end.

(** The root scope after [global_add('identity', ...)] and the merge of the
    nested items. *)
Definition seeded_scope (identity : string) (items : list (string * loc))
    (scope : gmap string Value) : gmap string Value :=
  fold_left (fun acc kv => <[fst kv := VDataGroup (snd kv)]> acc) items
            (<["identity" := VStr identity]> scope).

(** ** A concrete deployment, used to exercise the model *)

Module Demo.

Definition utils : PyModule :=
  {| module_name := "utils"; module_attrs := [("is_valid", "utils.is_valid")] |}.
Definition helpers : PyModule :=
  {| module_name := "helpers";
     module_attrs := [("clamp", "helpers.clamp"); ("scale", "helpers.scale")] |}.

Definition import_by_full_name (module : string) : Result PyModule :=
  if String.eqb module "utils" then Ok utils
  else if String.eqb module "helpers" then Ok helpers
  else Raise (ImportError module).

Definition make_group (item_schema : ItemSchema) (identity : string)
    (ctx : EvaluationContext) : DataGroup :=
  {| dg_schema := item_schema; dg_identity := identity; dg_context := ctx;
     dg_fields := [("_identity", SStr identity)]; dg_sub_keys := [];
     dg_closed := false |}.

Definition load_item (type_name : string)
    : Result (ItemSchema -> string -> EvaluationContext -> DataGroup) :=
  if String.eqb type_name "IdentityAggregate" then Ok make_group
  else if String.eqb type_name "SessionAggregate" then Ok make_group
  else Raise (UnknownTypeError type_name).

Definition state_schema : ItemSchema :=
  {| item_name := "state"; item_type := "IdentityAggregate"; item_spec := SNone |}.
Definition session_schema : ItemSchema :=
  {| item_name := "session"; item_type := "SessionAggregate"; item_spec := SNone |}.
Definition memory_schema : ItemSchema :=
  {| item_name := "memory"; item_type := "MemoryStore"; item_spec := SNone |}.

Definition loader : SchemaLoader :=
  {| get_nested_schema_object := fun _ name =>
       if String.eqb name "memory" then Ok memory_schema
       else Raise (KeyError name) |}.

Definition data_groups_spec : SpecValue :=
  SSeq [SMap [("Name", SStr "state"); ("Type", SStr "IdentityAggregate")];
        SMap [("Name", SStr "session"); ("Type", SStr "SessionAggregate")]].

(** The base constructor over a fixed specification document. *)
Definition base_init (spec : list (string * SpecValue))
    (fqn : string) (ldr : SchemaLoader) (attribute : string)
    : Result BaseSchemaCollection :=
  Ok {| base_spec := spec; base_name := fqn;
        base_nested_schema := [("state", state_schema); ("session", session_schema)] |}.

Definition minimal_spec : list (string * SpecValue) :=
  [("Name", SStr "stream"); ("Version", SStr "2018-03-01");
   ("DataGroups", data_groups_spec)].

Definition no_version_spec : list (string * SpecValue) :=
  [("Name", SStr "stream"); ("DataGroups", data_groups_spec)].

Definition duplicate_stores_spec : list (string * SpecValue) :=
  [("Name", SStr "stream"); ("Version", SStr "2018-03-01");
   ("Stores", SSeq [SMap [("Name", SStr "memory"); ("Type", SStr "MemoryStore")];
                    SMap [("Name", SStr "memory"); ("Type", SStr "MemoryStore")]]);
   ("DataGroups", data_groups_spec)].

Definition import_spec : list (string * SpecValue) :=
  [("Name", SStr "stream"); ("Version", SStr "2018-03-01");
   ("Import", SSeq [SMap [("Module", SStr "utils")];
                    SMap [("Module", SStr "helpers");
                          ("Identifier", SSeq [SStr "clamp"])]]);
   ("DataGroups", data_groups_spec)].

(** A schema as [TransformerSchema.__init__] leaves it for [minimal_spec]
    on the empty heap, and the heap it leaves. *)
Definition schema : TransformerSchema :=
  {| fully_qualified_name := "stream"; schema_loader := loader;
     _spec := minimal_spec; schema_name := "stream";
     nested_schema := [("state", state_schema); ("session", session_schema)];
     version := SStr "2018-03-01"; description := SNone; stores := [];
     import_list := SNone;
     schema_context := {| global_context := 0; local_context := 1 |} |}.

Definition schema_heap : Heap :=
  {| contexts := [∅; ∅]; data_groups := []; store := ∅; trace := [] |}.

(** The transformer of ["user-1"] over [schema], and the heap after its
    construction. *)
Definition transformer : Transformer :=
  {| _schema := schema; _evaluation_context := schema_context schema;
     _data_groups := [("state", 0); ("session", 1)]; _identity := "user-1" |}.

Definition transformer_heap : Heap :=
  snd (Transformer_init load_item schema "user-1" schema_heap).

End Demo.

(** ** Further concrete inputs *)

Module Cases.

Definition clamp_entry : SpecValue :=
  SMap [("Module", SStr "helpers"); ("Identifier", SSeq [SStr "clamp"; SStr "scale"])].
Definition is_valid_entry : SpecValue :=
  SMap [("Module", SStr "utils"); ("Identifier", SSeq [SStr "is_valid"])].
Definition utils_entry : SpecValue := SMap [("Module", SStr "utils")].

Definition memory_entry : SpecValue :=
  SMap [("Name", SStr "memory"); ("Type", SStr "MemoryStore")].
Definition disk_entry : SpecValue :=
  SMap [("Name", SStr "disk"); ("Type", SStr "DiskStore")].
Definition nameless_entry : SpecValue := SMap [("Type", SStr "MemoryStore")].

Definition disk_schema : ItemSchema :=
  {| item_name := "disk"; item_type := "DiskStore"; item_spec := SNone |}.

(** A loader that knows the stores ["memory"] and ["disk"]. *)
Definition loader : SchemaLoader :=
  {| get_nested_schema_object := fun _ name =>
       if String.eqb name "memory" then Ok Demo.memory_schema
       else if String.eqb name "disk" then Ok disk_schema
       else Raise (KeyError name) |}.

Definition spec_with (attributes : list (string * SpecValue)) : list (string * SpecValue) :=
  [("Name", SStr "stream"); ("Version", SStr "2018-03-01")] ++ attributes
  ++ [("DataGroups", Demo.data_groups_spec)].

Definition base (spec : list (string * SpecValue)) : BaseSchemaCollection :=
  {| base_spec := spec; base_name := "stream";
     base_nested_schema := [("state", Demo.state_schema); ("session", Demo.session_schema)] |}.

Definition context : EvaluationContext := {| global_context := 0; local_context := 1 |}.


Definition window_schema : ItemSchema :=
  {| item_name := "window"; item_type := "WindowAggregate"; item_spec := SNone |}.

(** [Demo.schema] with an entry of a type the registry does not know. *)
Definition unknown_type_schema : TransformerSchema :=
  {| fully_qualified_name := "stream"; schema_loader := Demo.loader;
     _spec := Demo.minimal_spec; schema_name := "stream";
     nested_schema := [("state", Demo.state_schema); ("window", window_schema);
                       ("session", Demo.session_schema)];
     version := SStr "2018-03-01"; description := SNone; stores := [];
     import_list := SNone; schema_context := context |}.

(** The heap of [Demo.schema] after ["clamp"] was imported into its global
    scope. *)
Definition imported_heap : Heap :=
  {| contexts := [{["clamp" := VObject "helpers.clamp"]}; ∅]; data_groups := [];
     store := ∅; trace := [] |}.



(** The transformer of ["user-2"] built over [Demo.schema] after
    [Demo.transformer]. *)
Definition second_transformer : Transformer :=
  {| _schema := Demo.schema; _evaluation_context := schema_context Demo.schema;
     _data_groups := [("state", 2); ("session", 3)]; _identity := "user-2" |}.

Definition two_transformers_heap : Heap :=
  snd (Transformer_init Demo.load_item Demo.schema "user-2" Demo.transformer_heap).

End Cases.

(** ** Statements used below *)

(** A data group that is closed, if it is allocated at all. *)
Definition closed_at (h : Heap) (l : loc) : Prop :=
  ∀ dg, data_groups h !! l = Some dg → dg_closed dg = true.

(** C4, as stated: each of two transformers built from one schema owns its
    root scope. *)
Definition owns_root_scope
    (load_item : string -> Result (ItemSchema -> string -> EvaluationContext -> DataGroup))
    (schema : TransformerSchema) (id1 id2 : string) (h : Heap) : Prop :=
  ∀ t1 h1 t2 h2,
    Transformer_init load_item schema id1 h = (Ok t1, h1) →
    Transformer_init load_item schema id2 h1 = (Ok t2, h2) →
    resolve (_evaluation_context t1) "identity" h2 = Some (VStr id1) ∧
    (∀ name name' l, (name', l) ∈ _nested_items t2 →
       resolve_root (_evaluation_context t1) name h2 ≠ Some (VDataGroup l)) ∧
    (∀ name name' l, (name', l) ∈ _nested_items t1 →
       resolve_root (_evaluation_context t2) name h2 ≠ Some (VDataGroup l)).

(** The name a [Stores] entry declares. *)
Definition store_name (schema_spec : SpecValue) : option string :=
  match schema_spec with
  | SMap entries =>
      match Dict.get ATTRIBUTE_NAME entries with
      | Some (SStr name) => Some name
      | _ => None
      end
  | _ => None
  end.

Definition resolvable (ldr : SchemaLoader) (fqn : string) (schema_spec : SpecValue) : Prop :=
  ∃ name obj, store_name schema_spec = Some name ∧
              get_nested_schema_object ldr fqn name = Ok obj.

(** A specification whose [Stores] sequence names one store twice. *)
Definition has_duplicate_store_names (spec : list (string * SpecValue)) : Prop :=
  ∃ specs i j name,
    Dict.get ATTRIBUTE_STORES spec = Some (SSeq specs) ∧ i ≠ j ∧
    store_name <$> specs !! i = Some (Some name) ∧
    store_name <$> specs !! j = Some (Some name).

(** C9, as stated: a duplicated store name makes the construction fail. *)
Definition rejects_duplicate_stores
    (import_by_full_name : string -> Result PyModule)
    (base_init : string -> SchemaLoader -> string -> Result BaseSchemaCollection)
    (fqn : string) (ldr : SchemaLoader) (h : Heap) : Prop :=
  ∀ base,
    base_init fqn ldr ATTRIBUTE_DATA_GROUPS = Ok base →
    has_duplicate_store_names (base_spec base) →
    ∃ e h', TransformerSchema_init import_by_full_name base_init fqn ldr h = (Raise e, h').

(** ** Statements about imports, stores and frames *)

(** The heap with the scope at [c] changed by [f]. *)
Definition alter_context (c : loc) (f : gmap string Value -> gmap string Value)
    (h : Heap) : Heap :=
  {| contexts := alter f c (contexts h); data_groups := data_groups h;
     store := store h; trace := trace h |}.

(** The scope after the bindings [bs] were added one after the other. *)
Definition bind_all (bs : list (string * Value)) (scope : gmap string Value)
    : gmap string Value :=
  fold_left (fun acc b => <[fst b := snd b]> acc) bs scope.

(** [identifier] names an attribute of [module_obj]; [b] is the binding its
    import adds. *)
Definition identifier_binding (module_obj : PyModule) (identifier : SpecValue)
    (b : string * Value) : Prop :=
  ∃ name qualified_name,
    identifier = SStr name ∧
    Dict.get name (module_attrs module_obj) = Some qualified_name ∧
    b = (name, VObject qualified_name).

(** An import entry with an importable module and a list of identifiers that
    are all attributes of it; [bs] are the bindings it adds. *)
Definition identifier_import (import_by_full_name : string -> Result PyModule)
    (custom_import : SpecValue) (bs : list (string * Value)) : Prop :=
  ∃ entries module module_obj identifiers,
    custom_import = SMap entries ∧
    Dict.get ATTRIBUTE_IMPORT_MODULE entries = Some (SStr module) ∧
    import_by_full_name module = Ok module_obj ∧
    Dict.get ATTRIBUTE_IMPORT_IDENTIFIER entries = Some (SSeq identifiers) ∧
    Forall2 (identifier_binding module_obj) identifiers bs.

(** An import entry with an importable module and no identifier list; [b]
    is the binding it adds. *)
Definition module_import (import_by_full_name : string -> Result PyModule)
    (custom_import : SpecValue) (b : string * Value) : Prop :=
  ∃ entries module module_obj,
    custom_import = SMap entries ∧
    Dict.get ATTRIBUTE_IMPORT_MODULE entries = Some (SStr module) ∧
    import_by_full_name module = Ok module_obj ∧
    Dict.get ATTRIBUTE_IMPORT_IDENTIFIER entries = None ∧
    b = (module, VModule module_obj).

(** A [Stores] entry that declares [fst kv] and that the schema loader
    resolves to [snd kv]. *)
Definition store_binding (ldr : SchemaLoader) (fqn : string) (schema_spec : SpecValue)
    (kv : string * ItemSchema) : Prop :=
  store_name schema_spec = Some (fst kv) ∧
  get_nested_schema_object ldr fqn (fst kv) = Ok (snd kv).

(** The heap after [EvaluationContext()] allocated its two empty scopes. *)
Definition with_new_context (h : Heap) : Heap :=
  {| contexts := contexts h ++ [∅; ∅]; data_groups := data_groups h;
     store := store h; trace := trace h |}.

(** A computation that changes at most the scope at [c]. *)
Definition root_step (c : loc) {A} (m : M A) : Prop :=
  ∀ h, ∃ f, snd (m h) = alter_context c f h.

(** A computation that leaves the heap as it is. *)
Definition pure_step {A} (m : M A) : Prop := ∀ h, snd (m h) = h.

(** Every entry of [items] has a type known to the registry. *)
Definition registered
    (load_item : string -> Result (ItemSchema -> string -> EvaluationContext -> DataGroup))
    (items : list (string * ItemSchema)) : Prop :=
  Forall (fun kv => ∃ ctor, load_item (item_type (snd kv)) = Ok ctor) items.

(** The heap with the data groups [built] allocated after the existing ones. *)
Definition with_data_groups (h : Heap) (built : list DataGroup) : Heap :=
  {| contexts := contexts h; data_groups := data_groups h ++ built;
     store := store h; trace := trace h |}.

(** * Properties *)

(** ** Ordered dictionaries *)

Section DictFacts.
Context {V : Type}.
Implicit Types (k : string) (v : V) (d : list (string * V)).

Lemma dict_get_elem k v d : Dict.get k d = Some v → (k, v) ∈ d.
Proof.
  induction d as [|[k' v'] d IH]; simpl; [done|].
  destruct (String.eqb_spec k k') as [->|Hne].
  - intros [= ->]. left.
  - intros H. right. by apply IH.
Qed.

Lemma dict_get_None k d : Dict.get k d = None ↔ k ∉ Dict.keys d.
Proof.
  induction d as [|[k' v'] d IH]; simpl.
  - split; [intros _; apply not_elem_of_nil | done].
  - destruct (String.eqb_spec k k') as [->|Hne].
    + split; [done|]. intros H. exfalso. apply H. left.
    + rewrite IH. unfold Dict.keys. rewrite not_elem_of_cons. tauto.
Qed.

Lemma dict_contains_keys k d : Dict.contains k d = true ↔ k ∈ Dict.keys d.
Proof.
  unfold Dict.contains. destruct (Dict.get k d) as [v|] eqn:Hget.
  - split; [intros _|done].
    destruct (decide (k ∈ Dict.keys d)) as [|Hn]; [done|].
    apply dict_get_None in Hn. congruence.
  - split; [done|]. intros Hin. by apply dict_get_None in Hget.
Qed.

Lemma dict_get_NoDup k v d :
  NoDup (Dict.keys d) → (k, v) ∈ d → Dict.get k d = Some v.
Proof.
  induction d as [|[k' v'] d IH]; simpl.
  - intros _ H. by apply elem_of_nil in H.
  - rewrite NoDup_cons. intros [Hk Hnd] Hin.
    apply elem_of_cons in Hin as [[= -> ->]|Hin].
    + by rewrite String.eqb_refl.
    + destruct (String.eqb_spec k k') as [->|Hne]; [|by apply IH].
      exfalso. apply Hk. unfold Dict.keys.
      apply list_elem_of_fmap. by exists (k', v).
Qed.

Lemma dict_set_fresh k v d : k ∉ Dict.keys d → Dict.set k v d = d ++ [(k, v)].
Proof.
  induction d as [|[k' v'] d IH]; simpl; [done|].
  unfold Dict.keys. rewrite not_elem_of_cons. intros [Hne Hk].
  destruct (String.eqb_spec k k') as [->|_]; [done|].
  by rewrite IH.
Qed.
End DictFacts.

(** ** Lookup of a data group *)

Lemma getitem_declared (self : Transformer) (item : string) (h : Heap) :
  item ∈ Dict.keys (_nested_items self) →
  ∃ dg, (item, dg) ∈ _nested_items self ∧
        Dict.get item (_nested_items self) = Some dg ∧
        Transformer_getitem self item h = (Ok dg, h).
Proof.
  unfold Transformer_getitem.
  intros Hin. apply dict_contains_keys in Hin as Hc. rewrite Hc. simpl.
  destruct (Dict.get item (_nested_items self)) as [dg|] eqn:Hget.
  - exists dg. split; [by apply dict_get_elem|done].
  - by apply dict_get_None in Hget.
Qed.

Lemma getitem_missing (self : Transformer) (item : string) (h : Heap) :
  item ∉ Dict.keys (_nested_items self) →
  Transformer_getitem self item h =
    (Raise (MissingAttributeError (item +:+ " not defined in " +:+ _name self)), h).
Proof.
  unfold Transformer_getitem. intros Hnot.
  destruct (Dict.contains item (_nested_items self)) eqn:Hc; [|done].
  by apply dict_contains_keys in Hc.
Qed.

(** C1: indexed lookup [self[item]] returns the data group bound to [item]
    when [item] is a declared data group of the transformer, and raises
    [MissingAttributeError] when it is not. *)
Theorem getitem_declared_or_missing (self : Transformer) (item : string) (h : Heap) :
  (item ∈ Dict.keys (_nested_items self) →
   ∃ dg, (item, dg) ∈ _nested_items self ∧
         Dict.get item (_nested_items self) = Some dg ∧
         Transformer_getitem self item h = (Ok dg, h)) ∧
  (item ∉ Dict.keys (_nested_items self) →
   Transformer_getitem self item h =
     (Raise (MissingAttributeError (item +:+ " not defined in " +:+ _name self)), h)).
Proof.
  unfold Transformer_getitem. split.
  - intros Hin. apply dict_contains_keys in Hin as Hc. rewrite Hc. simpl.
    destruct (Dict.get item (_nested_items self)) as [dg|] eqn:Hget.
    + exists dg. split; [by apply dict_get_elem|done].
    + by apply dict_get_None in Hget.
  - intros Hnot.
    destruct (Dict.contains item (_nested_items self)) eqn:Hc; [|done].
    by apply dict_contains_keys in Hc.
Qed.

Lemma getitem_declared_or_missing_witness :
  Transformer_getitem Demo.transformer "session" Demo.transformer_heap
    = (Ok 1, Demo.transformer_heap) ∧
  Transformer_getitem Demo.transformer "purchases" Demo.transformer_heap
    = (Raise (MissingAttributeError "purchases not defined in stream"),
       Demo.transformer_heap).
Proof.
  split.
  - destruct (getitem_declared_or_missing Demo.transformer "session"
                Demo.transformer_heap) as [Hdeclared _].
    destruct Hdeclared as (dg & _ & Hget & Hres).
    + apply (proj1 (dict_contains_keys _ _)). reflexivity.
    + injection Hget as <-. exact Hres.
  - apply (proj2 (getitem_declared_or_missing Demo.transformer "purchases"
                    Demo.transformer_heap)).
    apply (proj1 (dict_get_None _ _)). reflexivity.
Defined.

(** C2: a lookup of an undeclared name fails and leaves the heap as it was:
    every name is declared or undeclared as before, every data group has the
    state it had, and the evaluation context resolves every name as before. *)
Theorem failed_lookup_preserves_state (self : Transformer) (item : string)
    (h h' : Heap) (r : Result loc) :
  item ∉ Dict.keys (_nested_items self) →
  Transformer_getitem self item h = (r, h') →
  (∃ message, r = Raise (MissingAttributeError message)) ∧
  h' = h ∧
  (∀ name, Transformer_getitem self name h' = Transformer_getitem self name h) ∧
  (∀ l, data_groups h' !! l = data_groups h !! l) ∧
  store h' = store h ∧
  (∀ name, resolve (_evaluation_context self) name h'
           = resolve (_evaluation_context self) name h).
Proof.
  intros Hnot Hrun.
  rewrite (getitem_missing self item h Hnot) in Hrun.
  injection Hrun as <- <-. split; [by eexists|]. done.
Qed.

Lemma failed_lookup_preserves_state_witness :
  (∃ message, fst (Transformer_getitem Demo.transformer "purchases" Demo.transformer_heap)
              = Raise (MissingAttributeError message)) ∧
  snd (Transformer_getitem Demo.transformer "purchases" Demo.transformer_heap)
    = Demo.transformer_heap.
Proof.
  destruct (failed_lookup_preserves_state Demo.transformer "purchases"
              Demo.transformer_heap
              (snd (Transformer_getitem Demo.transformer "purchases" Demo.transformer_heap))
              (fst (Transformer_getitem Demo.transformer "purchases" Demo.transformer_heap)))
    as (Hraise & Hheap & _).
  - apply (proj1 (dict_get_None _ _)). reflexivity.
  - reflexivity.
  - split; [exact Hraise | exact Hheap].
Defined.

(** C10: for a name that is not a regular attribute, attribute access
    [self.name] gives what indexed access [self[name]] gives: the same data
    group when the name is declared, and [MissingAttributeError] (not
    [AttributeError]) when it is not. *)
Theorem attribute_access_is_getitem (inherited : list string) (self : Transformer)
    (name : string) (h : Heap) :
  name ∉ regular_attributes inherited →
  Transformer_getattr self name h = Transformer_getitem self name h ∧
  (∀ dg, Transformer_getitem self name h = (Ok dg, h) →
         attribute_access inherited self name h = (Ok (NestedItem dg), h)) ∧
  (name ∉ Dict.keys (_nested_items self) →
   attribute_access inherited self name h =
     (Raise (MissingAttributeError (name +:+ " not defined in " +:+ _name self)), h) ∧
   Transformer_getitem self name h =
     (Raise (MissingAttributeError (name +:+ " not defined in " +:+ _name self)), h)) ∧
  (name ∈ Dict.keys (_nested_items self) →
   ∃ dg, Transformer_getitem self name h = (Ok dg, h) ∧
         attribute_access inherited self name h = (Ok (NestedItem dg), h)).
Proof.
  intros Hreg.
  assert (Hacc : ∀ dg, Transformer_getitem self name h = (Ok dg, h) →
                       attribute_access inherited self name h = (Ok (NestedItem dg), h)).
  { intros dg Hget. unfold attribute_access.
    rewrite bool_decide_eq_false_2 by done.
    unfold mbind, M_bind, Transformer_getattr. by rewrite Hget. }
  split; [done|]. split; [exact Hacc|]. split.
  - intros Hnot.
    pose proof (getitem_missing self name h Hnot) as Hget.
    split; [|exact Hget].
    unfold attribute_access. rewrite bool_decide_eq_false_2 by done.
    unfold mbind, M_bind, Transformer_getattr. by rewrite Hget.
  - intros Hin.
    destruct (getitem_declared self name h Hin) as (dg & _ & _ & Hget).
    exists dg. split; [exact Hget | by apply Hacc].
Qed.

Lemma attribute_access_is_getitem_witness :
  attribute_access ["_schema"; "_evaluation_context"; "_name"] Demo.transformer
      "purchases" Demo.transformer_heap
  = (Raise (MissingAttributeError "purchases not defined in stream"),
     Demo.transformer_heap).
Proof.
  destruct (attribute_access_is_getitem ["_schema"; "_evaluation_context"; "_name"]
              Demo.transformer "purchases" Demo.transformer_heap)
    as (_ & _ & Hmissing & _).
  - apply (proj1 (bool_decide_eq_false _)). vm_compute. reflexivity.
  - apply Hmissing. apply (proj1 (dict_get_None _ _)). reflexivity.
Defined.

(** ** Construction of a transformer *)

Section Construction.
Variable load_item :
  string -> Result (ItemSchema -> string -> EvaluationContext -> DataGroup).
Variables (identity : string) (ctx : EvaluationContext).

Lemma construct_all_length items built :
  construct_all load_item identity ctx items = Ok built →
  length built = length items.
Proof.
  revert built. induction items as [|[name s] items IH]; simpl; intros built.
  - by intros [= <-].
  - destruct (load_item (item_type s)) as [ctor|e]; [|done].
    destruct (construct_all load_item identity ctx items) as [rest|e]; [|done].
    intros [= <-]. simpl. by rewrite (IH rest).
Qed.

Lemma construct_all_lookup items built i name s :
  construct_all load_item identity ctx items = Ok built →
  items !! i = Some (name, s) →
  ∃ ctor, load_item (item_type s) = Ok ctor ∧
          built !! i = Some (ctor s identity ctx).
Proof.
  revert built i. induction items as [|[name' s'] items IH]; simpl; intros built i.
  - done.
  - destruct (load_item (item_type s')) as [ctor|e] eqn:Hctor; [|done].
    destruct (construct_all load_item identity ctx items) as [rest|e]; [|done].
    intros [= <-]. destruct i as [|i]; simpl.
    + intros [= <- <-]. by exists ctor.
    + intros Hi. by apply IH.
Qed.

Lemma construct_all_registered items :
  Forall (fun kv => ∃ ctor, load_item (item_type (snd kv)) = Ok ctor) items →
  ∃ built, construct_all load_item identity ctx items = Ok built.
Proof.
  induction 1 as [|[name s] items [ctor Hctor] _ [built IH]]; simpl.
  - by eexists.
  - simpl in Hctor. rewrite Hctor, IH. by eexists.
Qed.

Lemma build_data_groups_ok items : ∀ acc built h,
  construct_all load_item identity ctx items = Ok built →
  NoDup (Dict.keys acc ++ Dict.keys items) →
  build_data_groups load_item identity ctx items acc h =
    (Ok (acc ++ zip (Dict.keys items) (seq (length (data_groups h)) (length items))),
     {| contexts := contexts h; data_groups := data_groups h ++ built;
        store := store h; trace := trace h |}).
Proof.
  induction items as [|[name s] items IH]; simpl; intros acc built h Hall Hnd.
  - injection Hall as <-. rewrite !app_nil_r. by destruct h.
  - destruct (load_item (item_type s)) as [ctor|e] eqn:Hctor; [|done].
    destruct (construct_all load_item identity ctx items) as [rest|e] eqn:Hrest; [|done].
    injection Hall as <-.
    unfold mbind, M_bind, lift_result, new_data_group. simpl.
    rewrite dict_set_fresh.
    2:{ apply NoDup_app in Hnd as (_ & Hdisj & _). intros Hin.
        apply (Hdisj name Hin). left. }
    rewrite (IH _ rest); [|done|].
    + simpl. rewrite length_app, Nat.add_1_r. simpl.
      by rewrite <- !app_assoc.
    + unfold Dict.keys in *. rewrite fmap_app. simpl.
      rewrite <- app_assoc. exact Hnd.
Qed.

Lemma build_data_groups_fail items : ∀ acc e h,
  construct_all load_item identity ctx items = Raise e →
  ∃ h', build_data_groups load_item identity ctx items acc h = (Raise e, h').
Proof.
  induction items as [|[name s] items IH]; simpl; intros acc e h Hall; [done|].
  unfold mbind, M_bind, lift_result, new_data_group.
  destruct (load_item (item_type s)) as [ctor|e'] eqn:Hctor.
  - destruct (construct_all load_item identity ctx items) as [rest|e''] eqn:Hrest; [done|].
    injection Hall as ->. simpl. by apply IH.
  - injection Hall as ->. by eexists.
Qed.
End Construction.

(** The transformer and the heap that a successful [Transformer.__init__]
    leaves: data groups at fresh consecutive locations, in declaration
    order, and the root scope of the schema's context seeded and merged. *)
Lemma Transformer_init_ok load_item schema identity built h :
  construct_all load_item identity (schema_context schema) (nested_schema schema) = Ok built →
  NoDup (Dict.keys (nested_schema schema)) →
  let dgs := zip (Dict.keys (nested_schema schema))
                 (seq (length (data_groups h)) (length (nested_schema schema))) in
  Transformer_init load_item schema identity h =
    (Ok {| _schema := schema; _evaluation_context := schema_context schema;
           _data_groups := dgs; _identity := identity |},
     {| contexts := alter (seeded_scope identity dgs)
                          (global_context (schema_context schema)) (contexts h);
        data_groups := data_groups h ++ built;
        store := store h; trace := trace h |}).
Proof.
  intros Hall Hnd dgs. unfold Transformer_init, BaseItemCollection_init, mbind, M_bind.
  simpl. rewrite (build_data_groups_ok _ _ _ _ [] built h Hall Hnd).
  unfold global_add, Context_merge, update_context. simpl.
  by rewrite list_alter_alter_eq.
Qed.

Lemma Transformer_init_inv load_item schema identity t h h' :
  Transformer_init load_item schema identity h = (Ok t, h') →
  ∃ built,
    construct_all load_item identity (schema_context schema) (nested_schema schema) = Ok built.
Proof.
  intros Hrun.
  destruct (construct_all load_item identity (schema_context schema) (nested_schema schema))
    as [built|e] eqn:Hall; [by eexists|].
  destruct (build_data_groups_fail _ _ _ _ [] e h Hall) as [h1 Hfail].
  unfold Transformer_init, BaseItemCollection_init, mbind, M_bind in Hrun.
  simpl in Hrun. by rewrite Hfail in Hrun.
Qed.

(** ** The root scope after construction *)

Lemma merge_lookup_other (items : list (string * loc)) : ∀ (scope : gmap string Value) k,
  k ∉ Dict.keys items →
  fold_left (fun acc kv => <[fst kv := VDataGroup (snd kv)]> acc) items scope !! k
    = scope !! k.
Proof.
  induction items as [|[k' l'] items IH]; simpl; intros scope k Hk; [done|].
  unfold Dict.keys in Hk. simpl in Hk. apply not_elem_of_cons in Hk as [Hne Hk].
  rewrite IH by done. by rewrite lookup_insert_ne.
Qed.

Lemma merge_lookup_item (items : list (string * loc)) : ∀ (scope : gmap string Value) k l,
  NoDup (Dict.keys items) →
  (k, l) ∈ items →
  fold_left (fun acc kv => <[fst kv := VDataGroup (snd kv)]> acc) items scope !! k
    = Some (VDataGroup l).
Proof.
  induction items as [|[k' l'] items IH]; simpl; intros scope k l Hnd Hin.
  - by apply elem_of_nil in Hin.
  - unfold Dict.keys in Hnd. simpl in Hnd. apply NoDup_cons in Hnd as [Hk' Hnd].
    apply elem_of_cons in Hin as [[= -> ->]|Hin].
    + rewrite merge_lookup_other by done. by rewrite lookup_insert_eq.
    + by apply IH.
Qed.

Lemma seeded_scope_item identity items scope k l :
  NoDup (Dict.keys items) → (k, l) ∈ items →
  seeded_scope identity items scope !! k = Some (VDataGroup l).
Proof. apply merge_lookup_item. Qed.

Lemma seeded_scope_identity identity items scope :
  "identity" ∉ Dict.keys items →
  seeded_scope identity items scope !! "identity" = Some (VStr identity).
Proof.
  intros Hk. unfold seeded_scope. rewrite merge_lookup_other by done.
  by rewrite lookup_insert_eq.
Qed.

Lemma keys_zip {A} (ks : list string) (vs : list A) :
  (length ks ≤ length vs)%nat → Dict.keys (zip ks vs) = ks.
Proof. apply fst_zip. Qed.

Lemma keys_length {V} (d : list (string * V)) : length (Dict.keys d) = length d.
Proof. unfold Dict.keys. by rewrite length_map. Qed.

Lemma declared_groups_keys {V} (d : list (string * V)) n :
  Dict.keys (zip (Dict.keys d) (seq n (length d))) = Dict.keys d.
Proof. apply keys_zip. by rewrite keys_length, length_seq. Qed.

Lemma declared_groups_values {V} (d : list (string * V)) n :
  Dict.values (zip (Dict.keys d) (seq n (length d))) = seq n (length d).
Proof. apply snd_zip. by rewrite keys_length, length_seq. Qed.

Lemma declared_groups_lookup {V} (d : list (string * V)) n i name v :
  d !! i = Some (name, v) →
  zip (Dict.keys d) (seq n (length d)) !! i = Some (name, n + i).
Proof.
  intros Hi. apply lookup_zip_Some. split.
  - unfold Dict.keys. by rewrite list_lookup_fmap, Hi.
  - apply lookup_seq. split; [done|]. by apply lookup_lt_Some in Hi.
Qed.

(** C5: constructing a transformer builds exactly one data group per nested
    schema entry, each by the constructor the type registry gives for the
    entry's declared type and at a fresh location, binds ['identity'] to the
    identity string in the context's global scope, and merges the
    name-to-data-group mapping into that scope, so that every declared data
    group is resolvable by name after construction. *)
Theorem Transformer_init_builds_groups load_item schema identity h :
  NoDup (Dict.keys (nested_schema schema)) →
  Forall (fun kv => ∃ ctor, load_item (item_type (snd kv)) = Ok ctor) (nested_schema schema) →
  (global_context (schema_context schema) < length (contexts h))%nat →
  ∃ t h' scope,
    Transformer_init load_item schema identity h = (Ok t, h') ∧
    _identity t = identity ∧
    _evaluation_context t = schema_context schema ∧
    Dict.keys (_nested_items t) = Dict.keys (nested_schema schema) ∧
    length (data_groups h') = length (data_groups h) + length (nested_schema schema) ∧
    (∀ l dg, data_groups h !! l = Some dg → data_groups h' !! l = Some dg) ∧
    (∀ i name item_schema,
       nested_schema schema !! i = Some (name, item_schema) →
       ∃ l ctor,
         _nested_items t !! i = Some (name, l) ∧
         load_item (item_type item_schema) = Ok ctor ∧
         data_groups h !! l = None ∧
         data_groups h' !! l = Some (ctor item_schema identity (schema_context schema)) ∧
         resolve_root (_evaluation_context t) name h' = Some (VDataGroup l) ∧
         Transformer_getitem t name h' = (Ok l, h')) ∧
    contexts h !! global_context (schema_context schema) = Some scope ∧
    contexts h' !! global_context (schema_context schema)
      = Some (seeded_scope identity (_nested_items t) scope) ∧
    ("identity" ∉ Dict.keys (nested_schema schema) →
     resolve_root (_evaluation_context t) "identity" h' = Some (VStr identity)).
Proof.
  intros Hnd Hreg Halloc.
  destruct (construct_all_registered load_item identity (schema_context schema) _ Hreg)
    as [built Hall].
  destruct (lookup_lt_is_Some_2 _ _ Halloc) as [scope Hscope].
  pose proof (Transformer_init_ok load_item schema identity built h Hall Hnd) as Hrun.
  simpl in Hrun.
  set (dgs := zip (Dict.keys (nested_schema schema))
                  (seq (length (data_groups h)) (length (nested_schema schema)))) in *.
  assert (Hkeys : @Dict.keys loc dgs = Dict.keys (nested_schema schema))
    by apply declared_groups_keys.
  assert (Hnd_dgs : NoDup (@Dict.keys loc dgs)) by (by rewrite Hkeys).
  assert (Hroot : ∀ name ds st tr,
            resolve_root (schema_context schema) name
              {| contexts := alter (seeded_scope identity dgs)
                               (global_context (schema_context schema)) (contexts h);
                 data_groups := ds; store := st; trace := tr |}
            = seeded_scope identity dgs scope !! name).
  { intros name ds st tr. unfold resolve_root. simpl.
    by rewrite list_lookup_alter_eq, Hscope. }
  eexists _, _, scope. split; [exact Hrun|]. simpl.
  split; [done|]. split; [done|]. split; [exact Hkeys|].
  split; [by rewrite length_app, (construct_all_length _ _ _ _ _ Hall)|].
  split; [intros l dg Hl; by apply lookup_app_l_Some|].
  split; [|split; [done|split]].
  - intros i name s Hi.
    destruct (construct_all_lookup _ _ _ _ _ i name s Hall Hi) as (ctor & Hctor & Hbuilt).
    pose proof (declared_groups_lookup _ (length (data_groups h)) _ _ _ Hi) as Hdg.
    fold dgs in Hdg.
    exists (length (data_groups h) + i), ctor.
    split; [exact Hdg|]. split; [exact Hctor|].
    split; [apply lookup_ge_None; lia|].
    split.
    { rewrite lookup_app_r by lia.
      by replace (length (data_groups h) + i - length (data_groups h)) with i by lia. }
    assert (Hin : (name, length (data_groups h) + i) ∈ dgs)
      by (apply list_elem_of_lookup; by exists i).
    split.
    + rewrite Hroot. apply seeded_scope_item; [exact Hnd_dgs|done].
    + set (t := {| _schema := schema; _identity := identity |}).
      destruct (getitem_declared t name
                  {| contexts := alter (seeded_scope identity dgs)
                       (global_context (schema_context schema)) (contexts h);
                     data_groups := data_groups h ++ built;
                     store := store h; trace := trace h |})
        as (l & Hl & Hget & Hres).
      { change (name ∈ @Dict.keys loc dgs). rewrite Hkeys.
        apply list_elem_of_fmap. exists (name, s). split; [done|].
        apply list_elem_of_lookup. by exists i. }
      change (Dict.get name dgs = Some l) in Hget.
      rewrite (dict_get_NoDup name (length (data_groups h) + i) dgs) in Hget; [|exact Hnd_dgs|done].
      injection Hget as <-. exact Hres.
  - by rewrite list_lookup_alter_eq, Hscope.
  - intros Hid. rewrite Hroot.
    apply seeded_scope_identity. by rewrite Hkeys.
Qed.

Lemma Transformer_init_builds_groups_witness :
  ∃ t h',
    Transformer_init Demo.load_item Demo.schema "user-1" Demo.schema_heap = (Ok t, h') ∧
    Dict.keys (_nested_items t) = ["state"; "session"] ∧
    resolve_root (_evaluation_context t) "identity" h' = Some (VStr "user-1").
Proof.
  destruct (Transformer_init_builds_groups Demo.load_item Demo.schema "user-1"
              Demo.schema_heap)
    as (t & h' & scope & Hrun & _ & _ & Hkeys & _ & _ & _ & _ & _ & Hid).
  - apply (bool_decide_unpack _). vm_compute. exact I.
  - repeat constructor; by eexists.
  - simpl. lia.
  - exists t, h'. split; [exact Hrun|]. split; [exact Hkeys|].
    apply Hid. apply (proj1 (dict_get_None _ _)). reflexivity.
Defined.

(** ** Finalize *)

Lemma DataGroup_finalize_runs l h :
  ∃ h', DataGroup_finalize l h = (Ok tt, h') ∧
        trace h' = trace h ++ [Finalize l] ∧
        contexts h' = contexts h ∧
        closed_at h' l ∧
        (∀ l', closed_at h l' → closed_at h' l') ∧
        (closed_at h l → data_groups h' = data_groups h ∧ store h' = store h).
Proof.
  unfold DataGroup_finalize, closed_at.
  destruct (data_groups h !! l) as [dg|] eqn:Hl; [destruct (dg_closed dg) eqn:Hc|].
  - eexists. split; [done|]. simpl. repeat split; try done.
    intros dg' Hdg'. congruence.
  - eexists. split; [done|]. simpl. split; [done|]. split; [done|].
    assert (Hlt : (l < length (data_groups h))%nat) by by apply lookup_lt_Some in Hl.
    split; [|split].
    + intros dg'. rewrite list_lookup_insert_eq by done. by intros [= <-].
    + intros l' Hl' dg'. destruct (decide (l = l')) as [<-|Hne].
      * rewrite list_lookup_insert_eq by done. by intros [= <-].
      * rewrite list_lookup_insert_ne by done. apply Hl'.
    + intros Hcl. specialize (Hcl dg eq_refl). congruence.
  - eexists. split; [done|]. simpl. repeat split; try done.
    intros dg'. simpl. congruence.
Qed.

Lemma finalize_all_runs ls : ∀ h,
  ∃ h', for_each DataGroup_finalize ls h = (Ok tt, h') ∧
        trace h' = trace h ++ map Finalize ls ∧
        contexts h' = contexts h ∧
        Forall (closed_at h') ls ∧
        (∀ l', closed_at h l' → closed_at h' l') ∧
        (Forall (closed_at h) ls → data_groups h' = data_groups h ∧ store h' = store h).
Proof.
  induction ls as [|l ls IH]; intros h; simpl.
  - exists h. rewrite app_nil_r. by repeat split.
  - destruct (DataGroup_finalize_runs l h) as (h1 & Hrun & Htr & Hctx & Hcl & Hpres & Hid).
    destruct (IH h1) as (h2 & Hrun2 & Htr2 & Hctx2 & Hcl2 & Hpres2 & Hid2).
    exists h2. unfold mbind, M_bind. rewrite Hrun. split; [exact Hrun2|].
    split; [by rewrite Htr2, Htr, <- app_assoc|].
    split; [congruence|].
    split; [constructor; [by apply Hpres2|done]|].
    split; [intros l' Hl'; by apply Hpres2, Hpres|].
    intros Hall. apply Forall_cons in Hall as [Hl Hls].
    destruct (Hid Hl) as [Hdg Hst].
    destruct Hid2 as [Hdg2 Hst2].
    { eapply Forall_impl; [exact Hls|]. intros l' Hl'. by apply Hpres. }
    split; congruence.
Qed.

(** C6: [finalize()] calls [finalize] on every data group of the
    transformer exactly once, in the declaration order of the schema's
    nested entries: the calls recorded are those on the data groups bound to
    the declared names, one per entry and in that order, all distinct. *)
Theorem finalize_in_declaration_order load_item schema identity t h h0 h1 :
  NoDup (Dict.keys (nested_schema schema)) →
  Transformer_init load_item schema identity h = (Ok t, h0) →
  ∃ h2 ls,
    Transformer_finalize t h1 = (Ok tt, h2) ∧
    trace h2 = trace h1 ++ map Finalize ls ∧
    length ls = length (nested_schema schema) ∧
    NoDup ls ∧
    _nested_items t = zip (Dict.keys (nested_schema schema)) ls ∧
    (∀ i name item_schema,
       nested_schema schema !! i = Some (name, item_schema) →
       ∃ l, ls !! i = Some l ∧ Transformer_getitem t name h1 = (Ok l, h1)).
Proof.
  intros Hnd Hinit.
  destruct (Transformer_init_inv _ _ _ _ _ _ Hinit) as [built Hall].
  rewrite (Transformer_init_ok _ _ _ built h Hall Hnd) in Hinit.
  injection Hinit as <- _.
  set (ls := seq (length (data_groups h)) (length (nested_schema schema))).
  set (dgs := zip (Dict.keys (nested_schema schema)) ls).
  destruct (finalize_all_runs ls h1) as (h2 & Hrun & Htr & _).
  exists h2, ls. unfold Transformer_finalize, _nested_items. simpl.
  fold ls. fold dgs.
  replace (@Dict.values loc dgs) with ls
    by (symmetry; apply (declared_groups_values (nested_schema schema))).
  split; [exact Hrun|]. split; [exact Htr|].
  split; [apply length_seq|]. split; [apply NoDup_seq|]. split; [done|].
  intros i name s Hi.
  pose proof (declared_groups_lookup _ (length (data_groups h)) _ _ _ Hi) as Hdg.
  fold ls in Hdg. fold dgs in Hdg.
  exists (length (data_groups h) + i). split.
  - apply lookup_seq. split; [done|]. by apply lookup_lt_Some in Hi.
  - assert (Hkeys : @Dict.keys loc dgs = Dict.keys (nested_schema schema))
      by apply declared_groups_keys.
    assert (Hget : @Dict.get loc name dgs = Some (length (data_groups h) + i)).
    { apply dict_get_NoDup; [by rewrite Hkeys|]. apply list_elem_of_lookup. by exists i. }
    unfold Transformer_getitem, _nested_items, Dict.contains. simpl.
    fold ls. fold dgs. by rewrite Hget.
Qed.

Lemma finalize_in_declaration_order_witness :
  ∃ h2 ls,
    Transformer_finalize Demo.transformer Demo.transformer_heap = (Ok tt, h2) ∧
    trace h2 = trace Demo.transformer_heap ++ map Finalize ls ∧
    _nested_items Demo.transformer = zip ["state"; "session"] ls.
Proof.
  destruct (finalize_in_declaration_order Demo.load_item Demo.schema "user-1"
              Demo.transformer Demo.schema_heap Demo.transformer_heap
              Demo.transformer_heap)
    as (h2 & ls & Hrun & Htr & _ & _ & Hzip & _).
  - apply (bool_decide_unpack _). vm_compute. exact I.
  - reflexivity.
  - exists h2, ls. split; [exact Hrun|]. split; [exact Htr | exact Hzip].
Defined.

(** C7: [finalize()] is idempotent: on every heap both calls return, and the
    second call leaves the persisted store snapshots, the data group states
    and the contexts as the first call left them. *)
Theorem finalize_idempotent (self : Transformer) (h : Heap) :
  ∃ h1 h2,
    Transformer_finalize self h = (Ok tt, h1) ∧
    Transformer_finalize self h1 = (Ok tt, h2) ∧
    store h2 = store h1 ∧
    data_groups h2 = data_groups h1 ∧
    contexts h2 = contexts h1.
Proof.
  unfold Transformer_finalize.
  destruct (finalize_all_runs (Dict.values (_nested_items self)) h)
    as (h1 & Hrun1 & _ & _ & Hclosed & _).
  destruct (finalize_all_runs (Dict.values (_nested_items self)) h1)
    as (h2 & Hrun2 & _ & Hctx & _ & _ & Hid).
  destruct (Hid Hclosed) as [Hdg Hst].
  by exists h1, h2.
Qed.

(** ** Two transformers over one schema *)

(** C4 fails on the code: after ["user-1"] and then ["user-2"] are built over
    one schema, ['identity'] resolves through the first transformer's context
    to ["user-2"]. *)
Lemma shared_root_scope_counterexample :
  "user-1" ≠ "user-2" ∧
  ¬ owns_root_scope Demo.load_item Demo.schema "user-1" "user-2" Demo.schema_heap.
Proof.
  split; [done|]. intros Howns.
  destruct (Howns Demo.transformer Demo.transformer_heap
              {| _schema := Demo.schema;
                 _evaluation_context := schema_context Demo.schema;
                 _data_groups := [("state", 2); ("session", 3)];
                 _identity := "user-2" |}
              (snd (Transformer_init Demo.load_item Demo.schema "user-2"
                      Demo.transformer_heap)))
    as (Hid & _); [reflexivity | reflexivity |].
  vm_compute in Hid. discriminate Hid.
Qed.

(** C4, amended: two transformers built from one schema share the schema's
    evaluation context.  After both constructions, ['identity'] resolves
    through the first transformer's context to the identity of the second,
    and every data group of the second is resolvable by name through the
    first one's root scope. *)
Theorem transformers_share_root_scope load_item schema id1 id2 h t1 h1 t2 h2 :
  NoDup (Dict.keys (nested_schema schema)) →
  "identity" ∉ Dict.keys (nested_schema schema) →
  (global_context (schema_context schema) < length (contexts h))%nat →
  Transformer_init load_item schema id1 h = (Ok t1, h1) →
  Transformer_init load_item schema id2 h1 = (Ok t2, h2) →
  _evaluation_context t1 = schema_context schema ∧
  _evaluation_context t2 = _evaluation_context t1 ∧
  resolve_root (_evaluation_context t1) "identity" h2 = Some (VStr id2) ∧
  (contexts h2 !! local_context (schema_context schema) ≫= (.!! "identity") = None →
   resolve (_evaluation_context t1) "identity" h2 = Some (VStr id2)) ∧
  (∀ name l, (name, l) ∈ _nested_items t2 →
     resolve_root (_evaluation_context t1) name h2 = Some (VDataGroup l) ∧
     data_groups h1 !! l = None).
Proof.
  intros Hnd Hid Halloc Hinit1 Hinit2.
  destruct (Transformer_init_inv _ _ _ _ _ _ Hinit1) as [built1 Hall1].
  destruct (Transformer_init_inv _ _ _ _ _ _ Hinit2) as [built2 Hall2].
  rewrite (Transformer_init_ok _ _ _ built1 h Hall1 Hnd) in Hinit1.
  rewrite (Transformer_init_ok _ _ _ built2 h1 Hall2 Hnd) in Hinit2.
  injection Hinit1 as <- <-. injection Hinit2 as <- <-. simpl.
  set (g := global_context (schema_context schema)) in *.
  set (n1 := length (data_groups h ++ built1)).
  set (dgs2 := zip (Dict.keys (nested_schema schema)) (seq n1 (length (nested_schema schema)))).
  assert (Hkeys : @Dict.keys loc dgs2 = Dict.keys (nested_schema schema))
    by apply declared_groups_keys.
  destruct (lookup_lt_is_Some_2 _ _ Halloc) as [scope Hscope].
  assert (Hroot : ∀ name ds st tr,
            resolve_root (schema_context schema) name
              {| contexts := alter (seeded_scope id2 dgs2) g
                   (alter (seeded_scope id1
                      (zip (Dict.keys (nested_schema schema))
                           (seq (length (data_groups h)) (length (nested_schema schema)))))
                      g (contexts h));
                 data_groups := ds; store := st; trace := tr |}
            = seeded_scope id2 dgs2
                (seeded_scope id1
                   (zip (Dict.keys (nested_schema schema))
                        (seq (length (data_groups h)) (length (nested_schema schema))))
                   scope) !! name).
  { intros name ds st tr. unfold resolve_root. simpl. fold g.
    by rewrite !list_lookup_alter_eq, Hscope. }
  assert (Hident : seeded_scope id2 dgs2
                (seeded_scope id1
                   (zip (Dict.keys (nested_schema schema))
                        (seq (length (data_groups h)) (length (nested_schema schema))))
                   scope) !! "identity" = Some (VStr id2)).
  { apply seeded_scope_identity. by rewrite Hkeys. }
  split; [done|]. split; [done|]. split; [by rewrite Hroot|]. split.
  - intros Hlocal. unfold resolve. simpl in *. rewrite Hlocal.
    fold g. by rewrite !list_lookup_alter_eq, Hscope.
  - intros name l Hin. split.
    + rewrite Hroot. apply seeded_scope_item; [by rewrite Hkeys|done].
    + apply lookup_ge_None. apply elem_of_zip_r in Hin.
      apply list_elem_of_lookup in Hin as [i Hi]. apply lookup_seq in Hi as [-> _].
      unfold n1. lia.
Qed.

Lemma transformers_share_root_scope_witness :
  ∃ t1 h1 t2 h2,
    Transformer_init Demo.load_item Demo.schema "user-1" Demo.schema_heap = (Ok t1, h1) ∧
    Transformer_init Demo.load_item Demo.schema "user-2" h1 = (Ok t2, h2) ∧
    _evaluation_context t2 = _evaluation_context t1 ∧
    resolve (_evaluation_context t1) "identity" h2 = Some (VStr "user-2").
Proof.
  exists Demo.transformer, Demo.transformer_heap.
  eexists {| _schema := Demo.schema; _evaluation_context := schema_context Demo.schema;
             _data_groups := [("state", 2); ("session", 3)]; _identity := "user-2" |}, _.
  destruct (transformers_share_root_scope Demo.load_item Demo.schema "user-1" "user-2"
              Demo.schema_heap Demo.transformer Demo.transformer_heap
              {| _schema := Demo.schema; _evaluation_context := schema_context Demo.schema;
                 _data_groups := [("state", 2); ("session", 3)]; _identity := "user-2" |}
              (snd (Transformer_init Demo.load_item Demo.schema "user-2"
                      Demo.transformer_heap)))
    as (_ & Hshared & _ & Hid & _).
  - apply (bool_decide_unpack _). vm_compute. exact I.
  - apply (proj1 (dict_get_None _ _)). reflexivity.
  - simpl. lia.
  - reflexivity.
  - reflexivity.
  - split; [reflexivity|]. split; [reflexivity|]. split; [exact Hshared|].
    apply Hid. reflexivity.
Defined.

(** ** Imports *)

(** C3, evaluated on the code: an import list whose first entry has no
    identifier list.  Construction succeeds and binds the module of the first
    entry, but the identifier of the second entry is never registered; with
    the two entries swapped both are registered. *)
Theorem import_modules_stops_after_module_entry :
  let module_entry := SMap [("Module", SStr "utils")] in
  let identifier_entry :=
    SMap [("Module", SStr "helpers"); ("Identifier", SSeq [SStr "clamp"])] in
  let ctx := {| global_context := 0; local_context := 1 |} in
  (∃ schema h,
     TransformerSchema_init Demo.import_by_full_name (Demo.base_init Demo.import_spec)
       "stream" Demo.loader empty_heap = (Ok schema, h) ∧
     import_list schema = SSeq [module_entry; identifier_entry] ∧
     schema_context schema = ctx ∧
     resolve_root ctx "utils" h = Some (VModule Demo.utils) ∧
     resolve_root ctx "clamp" h = None) ∧
  (∃ h,
     import_modules Demo.import_by_full_name (SSeq [identifier_entry; module_entry]) ctx
       Demo.schema_heap = (Ok tt, h) ∧
     resolve_root ctx "utils" h = Some (VModule Demo.utils) ∧
     resolve_root ctx "clamp" h = Some (VObject "helpers.clamp")).
Proof.
  split.
  - eexists (match fst (TransformerSchema_init Demo.import_by_full_name
                          (Demo.base_init Demo.import_spec) "stream" Demo.loader
                          empty_heap) with
             | Ok schema => schema
             | Raise _ => Demo.schema
             end),
            (snd (TransformerSchema_init Demo.import_by_full_name
                    (Demo.base_init Demo.import_spec) "stream" Demo.loader empty_heap)).
    by vm_compute.
  - exists (snd (import_modules Demo.import_by_full_name
                   (SSeq [SMap [("Module", SStr "helpers");
                                ("Identifier", SSeq [SStr "clamp"])];
                          SMap [("Module", SStr "utils")]])
                   {| global_context := 0; local_context := 1 |} Demo.schema_heap)).
    by vm_compute.
Qed.

(** ** Construction of a schema *)

Section DictSet.
Context {V : Type}.
Implicit Types (k : string) (v : V) (d : list (string * V)).

Lemma dict_get_set_eq k v d : Dict.get k (Dict.set k v d) = Some v.
Proof.
  induction d as [|[k' v'] d IH]; simpl.
  - by rewrite String.eqb_refl.
  - destruct (String.eqb_spec k k') as [->|Hne]; simpl.
    + by rewrite String.eqb_refl.
    + by destruct (String.eqb_spec k k').
Qed.

Lemma dict_get_set_ne k k' v d : k ≠ k' → Dict.get k' (Dict.set k v d) = Dict.get k' d.
Proof.
  intros Hne. induction d as [|[k0 v0] d IH]; simpl.
  - by destruct (String.eqb_spec k' k) as [->|_].
  - destruct (String.eqb_spec k k0) as [->|Hk]; simpl.
    + by destruct (String.eqb_spec k' k0) as [->|_].
    + by rewrite IH.
Qed.

Lemma dict_set_keys k v d :
  Dict.keys (Dict.set k v d)
    = if Dict.contains k d then Dict.keys d else Dict.keys d ++ [k].
Proof.
  destruct (Dict.contains k d) eqn:Hc.
  - apply dict_contains_keys in Hc.
    induction d as [|[k' v'] d IH]; simpl.
    + by apply elem_of_nil in Hc.
    + destruct (String.eqb_spec k k') as [->|Hne]; [done|]. simpl.
      unfold Dict.keys in *. simpl in Hc.
      apply elem_of_cons in Hc as [?|Hc]; [done|]. by rewrite IH.
  - assert (Hk : k ∉ Dict.keys d).
    { intros Hin. apply dict_contains_keys in Hin. congruence. }
    rewrite dict_set_fresh by done. unfold Dict.keys. by rewrite fmap_app.
Qed.

Lemma dict_set_NoDup k v d : NoDup (Dict.keys d) → NoDup (Dict.keys (Dict.set k v d)).
Proof.
  intros Hnd. rewrite dict_set_keys.
  destruct (Dict.contains k d) eqn:Hc; [done|].
  apply NoDup_app. split; [done|]. split; [|apply NoDup_singleton].
  intros k' Hin Hk'. apply list_elem_of_singleton in Hk' as ->.
  apply dict_contains_keys in Hin. congruence.
Qed.

Lemma dict_set_elem_keys k k' v d :
  k' ∈ Dict.keys (Dict.set k v d) ↔ k' = k ∨ k' ∈ Dict.keys d.
Proof.
  rewrite dict_set_keys. destruct (Dict.contains k d) eqn:Hc.
  - apply dict_contains_keys in Hc. split; [by right|].
    by intros [->|?].
  - rewrite elem_of_app, list_elem_of_singleton. tauto.
Qed.
End DictSet.

Lemma load_stores_resolved ldr fqn specs : ∀ acc h,
  Forall (resolvable ldr fqn) specs →
  ∃ stores,
    load_stores ldr fqn specs acc h = (Ok stores, h) ∧
    (NoDup (Dict.keys acc) → NoDup (Dict.keys stores)) ∧
    (∀ name, name ∈ Dict.keys stores ↔
             name ∈ Dict.keys acc ∨ Some name ∈ map store_name specs) ∧
    (∀ name obj, Some name ∈ map store_name specs →
                 get_nested_schema_object ldr fqn name = Ok obj →
                 Dict.get name stores = Some obj) ∧
    (∀ name, Some name ∉ map store_name specs →
             Dict.get name stores = Dict.get name acc).
Proof.
  induction specs as [|schema_spec specs IH]; intros acc h Hall.
  - exists acc. simpl. split; [done|]. split; [done|]. split.
    + intros name. rewrite elem_of_nil. tauto.
    + split; [|done]. intros name obj Hin. by apply elem_of_nil in Hin.
  - apply Forall_cons in Hall as [(key & obj & Hname & Hobj) Hall].
    destruct (IH (Dict.set key obj acc) h Hall) as (stores & Hrun & Hnd & Hkeys & Hget & Hkeep).
    exists stores. split.
    { simpl. unfold store_name in Hname.
      destruct schema_spec as [| | | |entries]; try done.
      destruct (Dict.get ATTRIBUTE_NAME entries) as [[| name | | |]|] eqn:Hentry; try done.
      injection Hname as ->.
      unfold mbind, M_bind, subscript, lift_option, lift_result, as_str.
      rewrite Hentry. simpl. by rewrite Hobj. }
    split; [intros Hacc; by apply Hnd, dict_set_NoDup|].
    simpl. rewrite Hname. split; [|split].
    + intros name. rewrite Hkeys, dict_set_elem_keys, elem_of_cons.
      split; [intros [[->|?]|?]|intros [?|[[= ->]|?]]]; tauto.
    + intros name obj' Hin Hobj'.
      destruct (decide (Some name ∈ map store_name specs)) as [Hrest|Hrest].
      * by apply Hget.
      * apply elem_of_cons in Hin as [[= ->]|?]; [|done].
        rewrite Hkeep by done. rewrite dict_get_set_eq. congruence.
    + intros name Hnot. apply not_elem_of_cons in Hnot as [Hne Hnot].
      rewrite Hkeep by done. apply dict_get_set_ne. congruence.
Qed.

Lemma optional_attribute_runs spec key h :
  optional_attribute spec key h = (Ok (default SNone (Dict.get key spec)), h).
Proof.
  unfold optional_attribute, Dict.contains, subscript.
  by destruct (Dict.get key spec).
Qed.

(** The schema and the heap that [TransformerSchema.__init__] leaves when
    the specification has a version and no imports. *)
Lemma TransformerSchema_init_without_imports
    import_by_full_name base_init fqn ldr h base v store_specs stores :
  base_init fqn ldr ATTRIBUTE_DATA_GROUPS = Ok base →
  Dict.get ATTRIBUTE_VERSION (base_spec base) = Some v →
  Dict.get ATTRIBUTE_IMPORT (base_spec base) = None →
  py_iter (default (SSeq []) (Dict.get ATTRIBUTE_STORES (base_spec base))) h
    = (Ok store_specs, h) →
  load_stores ldr fqn store_specs [] h = (Ok stores, h) →
  TransformerSchema_init import_by_full_name base_init fqn ldr h =
    (Ok {| fully_qualified_name := fqn; schema_loader := ldr;
           _spec := base_spec base; schema_name := base_name base;
           nested_schema := base_nested_schema base;
           version := v;
           description := default SNone (Dict.get ATTRIBUTE_DESCRIPTION (base_spec base));
           stores := stores; import_list := SNone;
           schema_context := {| global_context := length (contexts h);
                                local_context := S (length (contexts h)) |} |},
     {| contexts := contexts h ++ [∅; ∅]; data_groups := data_groups h;
        store := store h; trace := trace h |}).
Proof.
  intros Hbase Hversion Himport Hiter Hstores.
  unfold TransformerSchema_init, mbind, M_bind, lift_result. rewrite Hbase.
  unfold subscript at 1. rewrite Hversion. simpl.
  rewrite optional_attribute_runs, Hiter, Hstores, optional_attribute_runs, Himport.
  simpl. unfold EvaluationContext_new, mbind, M_bind, new_context. simpl.
  rewrite length_app, Nat.add_1_r, <- app_assoc. done.
Qed.

(** C8: a specification without the required [Version] attribute makes the
    construction of the schema fail, in the constructor itself; with
    [Version] present the constructor records it, and [Description],
    [Stores] and [Import] may be absent: construction then succeeds with no
    description, no stores and no imports. *)
Theorem schema_requires_version import_by_full_name base_init fqn ldr h :
  (∀ e, base_init fqn ldr ATTRIBUTE_DATA_GROUPS = Raise e →
        TransformerSchema_init import_by_full_name base_init fqn ldr h = (Raise e, h)) ∧
  (∀ base,
     base_init fqn ldr ATTRIBUTE_DATA_GROUPS = Ok base →
     (Dict.get ATTRIBUTE_VERSION (base_spec base) = None →
      TransformerSchema_init import_by_full_name base_init fqn ldr h
        = (Raise (KeyError ATTRIBUTE_VERSION), h)) ∧
     (∀ v,
        Dict.get ATTRIBUTE_VERSION (base_spec base) = Some v →
        Dict.get ATTRIBUTE_DESCRIPTION (base_spec base) = None →
        Dict.get ATTRIBUTE_STORES (base_spec base) = None →
        Dict.get ATTRIBUTE_IMPORT (base_spec base) = None →
        TransformerSchema_init import_by_full_name base_init fqn ldr h =
          (Ok {| fully_qualified_name := fqn; schema_loader := ldr;
                 _spec := base_spec base; schema_name := base_name base;
                 nested_schema := base_nested_schema base;
                 version := v; description := SNone; stores := [];
                 import_list := SNone;
                 schema_context := {| global_context := length (contexts h);
                                      local_context := S (length (contexts h)) |} |},
           {| contexts := contexts h ++ [∅; ∅]; data_groups := data_groups h;
              store := store h; trace := trace h |}))).
Proof.
  split.
  - intros e Hbase. unfold TransformerSchema_init, mbind, M_bind, lift_result.
    by rewrite Hbase.
  - intros base Hbase. split.
    + intros Hversion. unfold TransformerSchema_init, mbind, M_bind, lift_result.
      rewrite Hbase. unfold subscript, lift_option. by rewrite Hversion.
    + intros v Hversion Hdescription Hstores Himport.
      rewrite (TransformerSchema_init_without_imports _ _ _ _ _ base v [] []
                 Hbase Hversion Himport).
      * by rewrite Hdescription.
      * by rewrite Hstores.
      * done.
Qed.

Lemma schema_requires_version_witness :
  TransformerSchema_init Demo.import_by_full_name (Demo.base_init Demo.no_version_spec)
    "stream" Demo.loader empty_heap = (Raise (KeyError "Version"), empty_heap) ∧
  TransformerSchema_init Demo.import_by_full_name (Demo.base_init Demo.minimal_spec)
    "stream" Demo.loader empty_heap = (Ok Demo.schema, Demo.schema_heap).
Proof.
  split.
  - destruct (schema_requires_version Demo.import_by_full_name
                (Demo.base_init Demo.no_version_spec) "stream" Demo.loader empty_heap)
      as [_ Hbase].
    destruct (Hbase _ eq_refl) as [Hmissing _]. apply Hmissing. reflexivity.
  - destruct (schema_requires_version Demo.import_by_full_name
                (Demo.base_init Demo.minimal_spec) "stream" Demo.loader empty_heap)
      as [_ Hbase].
    destruct (Hbase _ eq_refl) as [_ Hpresent].
    apply (Hpresent (SStr "2018-03-01")); reflexivity.
Defined.

(** ** Duplicate store names *)

(** C9 fails on the code: a specification that names the store ["memory"]
    twice is accepted, and [stores] keeps a single entry for it. *)
Lemma duplicate_stores_counterexample :
  has_duplicate_store_names Demo.duplicate_stores_spec ∧
  (∃ schema h,
     TransformerSchema_init Demo.import_by_full_name
       (Demo.base_init Demo.duplicate_stores_spec) "stream" Demo.loader empty_heap
       = (Ok schema, h) ∧
     stores schema = [("memory", Demo.memory_schema)]) ∧
  ¬ rejects_duplicate_stores Demo.import_by_full_name
      (Demo.base_init Demo.duplicate_stores_spec) "stream" Demo.loader empty_heap.
Proof.
  assert (Hdup : has_duplicate_store_names Demo.duplicate_stores_spec).
  { eexists _, 0, 1, "memory". split; [reflexivity|]. by split. }
  split; [exact Hdup|]. split.
  - eexists (match fst (TransformerSchema_init Demo.import_by_full_name
                          (Demo.base_init Demo.duplicate_stores_spec) "stream"
                          Demo.loader empty_heap) with
             | Ok schema => schema
             | Raise _ => Demo.schema
             end), Demo.schema_heap.
    by vm_compute.
  - intros Hrejects. destruct (Hrejects _ eq_refl Hdup) as (e & h' & Hrun).
    vm_compute in Hrun. discriminate Hrun.
Qed.

(** C9, amended: two [Stores] entries with the same name do not make the
    construction fail.  When the schema loader resolves the name of every
    entry, construction succeeds and [stores] holds exactly one schema for
    each declared name, the duplicated one included. *)
Theorem duplicate_store_names_kept_once
    import_by_full_name base_init fqn ldr h base v specs i j name obj :
  base_init fqn ldr ATTRIBUTE_DATA_GROUPS = Ok base →
  Dict.get ATTRIBUTE_VERSION (base_spec base) = Some v →
  Dict.get ATTRIBUTE_IMPORT (base_spec base) = None →
  Dict.get ATTRIBUTE_STORES (base_spec base) = Some (SSeq specs) →
  Forall (resolvable ldr fqn) specs →
  i ≠ j →
  store_name <$> specs !! i = Some (Some name) →
  store_name <$> specs !! j = Some (Some name) →
  get_nested_schema_object ldr fqn name = Ok obj →
  ∃ schema h',
    TransformerSchema_init import_by_full_name base_init fqn ldr h = (Ok schema, h') ∧
    NoDup (Dict.keys (stores schema)) ∧
    (∀ name', name' ∈ Dict.keys (stores schema) ↔ Some name' ∈ map store_name specs) ∧
    name ∈ Dict.keys (stores schema) ∧
    Dict.get name (stores schema) = Some obj ∧
    (length (stores schema) < length specs)%nat.
Proof.
  intros Hbase Hversion Himport Hstores Hall Hij Hi Hj Hobj.
  destruct (load_stores_resolved ldr fqn specs [] h Hall)
    as (stores & Hrun & Hnd & Hkeys & Hget & _).
  eexists _, _. split.
  { apply (TransformerSchema_init_without_imports _ _ _ _ _ base v specs stores
             Hbase Hversion Himport); [by rewrite Hstores|exact Hrun]. }
  simpl.
  assert (Hin : Some name ∈ map store_name specs).
  { apply list_elem_of_lookup. exists i. by rewrite list_lookup_fmap. }
  specialize (Hnd (NoDup_nil_2)).
  assert (Hkeys' : ∀ name', name' ∈ Dict.keys stores ↔ Some name' ∈ map store_name specs).
  { intros name'. rewrite Hkeys. unfold Dict.keys at 1. simpl. rewrite elem_of_nil. tauto. }
  split; [exact Hnd|]. split; [exact Hkeys'|].
  split; [by apply Hkeys'|]. split; [by apply Hget|].
  (* one schema per name: fewer schemas than entries *)
  rewrite <- (keys_length stores), <- (length_map store_name specs).
  assert (Hsub : Some <$> Dict.keys stores ⊆ map store_name specs).
  { intros o Ho. apply list_elem_of_fmap in Ho as (k & -> & Hk). by apply Hkeys'. }
  assert (Hnd' : NoDup (Some <$> Dict.keys stores)).
  { apply NoDup_fmap; [|done]. by intros ?? [= ->]. }
  rewrite <- (length_fmap Some (Dict.keys stores)).
  destruct (decide (length (Some <$> Dict.keys stores) < length (map store_name specs))%nat)
    as [|Hge]; [done|]. exfalso.
  assert (Hperm : Some <$> Dict.keys stores ≡ₚ map store_name specs).
  { apply submseteq_length_Permutation; [|lia].
    by apply NoDup_submseteq. }
  assert (Hnds : NoDup (map store_name specs)) by by rewrite <- Hperm.
  rewrite <- list_lookup_fmap in Hi, Hj.
  apply Hij. eapply NoDup_lookup; [exact Hnds|exact Hi|exact Hj].
Qed.

Lemma duplicate_store_names_kept_once_witness :
  ∃ schema h',
    TransformerSchema_init Demo.import_by_full_name
      (Demo.base_init Demo.duplicate_stores_spec) "stream" Demo.loader empty_heap
      = (Ok schema, h') ∧
    NoDup (Dict.keys (stores schema)) ∧
    Dict.get "memory" (stores schema) = Some Demo.memory_schema.
Proof.
  destruct (duplicate_store_names_kept_once Demo.import_by_full_name
              (Demo.base_init Demo.duplicate_stores_spec) "stream" Demo.loader empty_heap
              {| base_spec := Demo.duplicate_stores_spec; base_name := "stream";
                 base_nested_schema :=
                   [("state", Demo.state_schema); ("session", Demo.session_schema)] |}
              (SStr "2018-03-01")
              [SMap [("Name", SStr "memory"); ("Type", SStr "MemoryStore")];
               SMap [("Name", SStr "memory"); ("Type", SStr "MemoryStore")]]
              0 1 "memory" Demo.memory_schema)
    as (schema & h' & Hrun & Hnd & _ & _ & Hget & _).
  - reflexivity.
  - reflexivity.
  - reflexivity.
  - reflexivity.
  - repeat constructor; exists "memory", Demo.memory_schema; split; reflexivity.
  - discriminate.
  - reflexivity.
  - reflexivity.
  - reflexivity.
  - exists schema, h'. split; [exact Hrun|]. split; [exact Hnd | exact Hget].
Defined.

(** * Further properties of the code *)

(** ** Imports, entry by entry *)

Lemma alter_context_compose c f g h :
  alter_context c f (alter_context c g h) = alter_context c (f ∘ g) h.
Proof. unfold alter_context. simpl. by rewrite list_alter_alter_eq. Qed.

Lemma alter_context_id c f h : (∀ scope, f scope = scope) → alter_context c f h = h.
Proof.
  intros Hf. unfold alter_context. rewrite list_alter_id by done. by destruct h.
Qed.

Lemma bind_all_app bs1 bs2 scope :
  bind_all (bs1 ++ bs2) scope = bind_all bs2 (bind_all bs1 scope).
Proof. unfold bind_all. by rewrite fold_left_app. Qed.

Lemma alter_context_bind_all c bs1 bs2 h :
  alter_context c (bind_all bs2) (alter_context c (bind_all bs1) h)
    = alter_context c (bind_all (bs1 ++ bs2)) h.
Proof.
  rewrite alter_context_compose. unfold alter_context. f_equal.
  apply list_alter_ext; [|done]. intros scope _. simpl. by rewrite bind_all_app.
Qed.

Lemma bind_all_lookup_other bs : ∀ scope name,
  name ∉ bs.*1 → bind_all bs scope !! name = scope !! name.
Proof.
  induction bs as [|[k v] bs IH]; intros scope name Hk; [done|].
  simpl in Hk. apply not_elem_of_cons in Hk as [Hne Hk].
  change (bind_all bs (<[k := v]> scope) !! name = scope !! name).
  rewrite IH by done. by rewrite lookup_insert_ne.
Qed.

Lemma bind_all_lookup_bound bs : ∀ scope name,
  name ∈ bs.*1 → ∃ v, (name, v) ∈ bs ∧ bind_all bs scope !! name = Some v.
Proof.
  induction bs as [|[k v] bs IH]; intros scope name Hk.
  - by apply elem_of_nil in Hk.
  - change (bind_all ((k, v) :: bs) scope) with (bind_all bs (<[k := v]> scope)).
    destruct (decide (name ∈ bs.*1)) as [Hin|Hnot].
    + destruct (IH (<[k := v]> scope) name Hin) as (v' & Hv' & Hlook).
      exists v'. split; [by right|done].
    + simpl in Hk. apply elem_of_cons in Hk as [->|?]; [|done].
      exists v. split; [left|].
      rewrite bind_all_lookup_other by done. by rewrite lookup_insert_eq.
Qed.

Lemma bind_all_lookup_NoDup bs scope name v :
  NoDup bs.*1 → (name, v) ∈ bs → bind_all bs scope !! name = Some v.
Proof.
  intros Hnd Hin.
  destruct (bind_all_lookup_bound bs scope name) as (v' & Hv' & Hlook).
  { apply list_elem_of_fmap. by exists (name, v). }
  rewrite Hlook. f_equal.
  apply list_elem_of_lookup in Hin as [i Hi]. apply list_elem_of_lookup in Hv' as [j Hj].
  assert (i = j) as ->.
  { eapply NoDup_lookup; [exact Hnd| |]; by rewrite list_lookup_fmap, ?Hi, ?Hj. }
  congruence.
Qed.

Section Imports.
Variable import_by_full_name : string -> Result PyModule.
Variable ctx : EvaluationContext.

Lemma import_identifiers_run module_obj identifiers bs rest : ∀ h,
  Forall2 (identifier_binding module_obj) identifiers bs →
  for_each (import_identifier ctx module_obj) (identifiers ++ rest) h
    = for_each (import_identifier ctx module_obj) rest
        (alter_context (global_context ctx) (bind_all bs) h).
Proof.
  intros h Hall. revert h.
  induction Hall as [|identifier b identifiers bs (name & q & -> & Hattr & ->) _ IH];
    intros h.
  - by rewrite alter_context_id.
  - simpl. unfold mbind at 1, M_bind at 1. unfold import_identifier at 1.
    unfold mbind, M_bind, as_str, module_getattr, lift_option. simpl.
    rewrite Hattr. simpl. unfold global_add, update_context.
    rewrite IH. fold (alter_context (global_context ctx) (<[name := VObject q]>) h).
    by rewrite alter_context_compose.
Qed.

Lemma import_loop_identifier_entries entries bss rest : ∀ h,
  Forall2 (identifier_import import_by_full_name) entries bss →
  import_loop import_by_full_name ctx (entries ++ rest) h
    = import_loop import_by_full_name ctx rest
        (alter_context (global_context ctx) (bind_all (concat bss)) h).
Proof.
  intros h Hall. revert h.
  induction Hall
    as [|custom_import bs entries bss
         (es & module & module_obj & identifiers & -> & Hmodule & Himport & Hids & Hbs)
         _ IH]; intros h.
  - by rewrite alter_context_id.
  - simpl. unfold mbind, M_bind, subscript, lift_option, as_str, lift_result,
      spec_contains, Dict.contains, py_iter.
    rewrite Hmodule. simpl. rewrite Himport, Hids. simpl.
    pose proof (import_identifiers_run module_obj identifiers bs [] h Hbs) as Hrun.
    rewrite app_nil_r in Hrun. simpl in Hrun. unfold mret, M_ret in Hrun.
    rewrite Hrun, IH. by rewrite alter_context_bind_all.
Qed.
End Imports.

Lemma contexts_alter_context (c : loc) f h scope :
  contexts h !! c = Some scope →
  contexts (alter_context c f h) !! c = Some (f scope).
Proof.
  intros Hscope. unfold alter_context. cbn [contexts].
  rewrite list_lookup_alter_eq. unfold loc in *. by rewrite Hscope.
Qed.

Lemma resolve_root_alter_context ctx f h scope name :
  contexts h !! global_context ctx = Some scope →
  resolve_root ctx name (alter_context (global_context ctx) f h) = f scope !! name.
Proof.
  intros Hscope. unfold resolve_root, alter_context. cbn [contexts].
  rewrite list_lookup_alter_eq. unfold loc in *. by rewrite Hscope.
Qed.

(** X1: when every entry of the import list has an importable module and a
    list of identifiers that are attributes of it, [import_modules] succeeds
    and registers the identifiers of every entry, in order: each listed
    identifier is bound in the global scope to an attribute imported under
    that name (to the one its entry names when no identifier is listed
    twice), and the other names of the scope keep their bindings. *)
Theorem imports_with_identifiers_registered import_by_full_name ctx entries bss scope h :
  Forall2 (identifier_import import_by_full_name) entries bss →
  contexts h !! global_context ctx = Some scope →
  ∃ h',
    import_modules import_by_full_name (SSeq entries) ctx h = (Ok tt, h') ∧
    contexts h' !! global_context ctx = Some (bind_all (concat bss) scope) ∧
    data_groups h' = data_groups h ∧ store h' = store h ∧
    (∀ name, name ∈ (concat bss).*1 →
       ∃ v, (name, v) ∈ concat bss ∧ resolve_root ctx name h' = Some v) ∧
    (NoDup (concat bss).*1 →
     ∀ name v, (name, v) ∈ concat bss → resolve_root ctx name h' = Some v) ∧
    (∀ name, name ∉ (concat bss).*1 →
       resolve_root ctx name h' = resolve_root ctx name h).
Proof.
  intros Hall Hscope.
  exists (alter_context (global_context ctx) (bind_all (concat bss)) h).
  split.
  { unfold import_modules, mbind, M_bind, py_iter. simpl.
    pose proof (import_loop_identifier_entries import_by_full_name ctx
                  entries bss [] h Hall) as Hrun.
    by rewrite app_nil_r in Hrun. }
  split; [by apply contexts_alter_context|].
  split; [done|]. split; [done|]. split; [|split].
  - intros name Hin.
    destruct (bind_all_lookup_bound (concat bss) scope name Hin) as (v & Hv & Hlook).
    exists v. split; [done|]. by rewrite (resolve_root_alter_context _ _ _ scope).
  - intros Hnd name v Hin. rewrite (resolve_root_alter_context _ _ _ scope) by done.
    by apply bind_all_lookup_NoDup.
  - intros name Hnot. rewrite (resolve_root_alter_context _ _ _ scope) by done.
    rewrite bind_all_lookup_other by done. unfold resolve_root. by rewrite Hscope.
Qed.

Lemma imports_with_identifiers_registered_witness :
  ∃ h',
    import_modules Demo.import_by_full_name
      (SSeq [Cases.clamp_entry; Cases.is_valid_entry]) Cases.context Demo.schema_heap
      = (Ok tt, h') ∧
    resolve_root Cases.context "scale" h' = Some (VObject "helpers.scale") ∧
    resolve_root Cases.context "is_valid" h' = Some (VObject "utils.is_valid").
Proof.
  destruct (imports_with_identifiers_registered Demo.import_by_full_name Cases.context
              [Cases.clamp_entry; Cases.is_valid_entry]
              [[("clamp", VObject "helpers.clamp"); ("scale", VObject "helpers.scale")];
               [("is_valid", VObject "utils.is_valid")]]
              ∅ Demo.schema_heap)
    as (h' & Hrun & _ & _ & _ & _ & Hbound & _).
  - repeat constructor.
    + eexists _, "helpers", Demo.helpers, _. repeat split; try reflexivity.
      repeat constructor; eexists _, _; repeat split; reflexivity.
    + eexists _, "utils", Demo.utils, _. repeat split; try reflexivity.
      repeat constructor; eexists _, _; repeat split; reflexivity.
  - reflexivity.
  - exists h'. split; [exact Hrun|].
    assert (Hnd : NoDup ["clamp"; "scale"; "is_valid"]).
    { apply (bool_decide_unpack _). vm_compute. exact I. }
    split; apply (Hbound Hnd); simpl.
    + right. left.
    + right. right. left.
Defined.

(** X2: [import_modules] registers everything up to and including the first
    entry that has no identifier list, binds that entry's module name to the
    module object, and ignores whatever follows it in the list. *)
Theorem imports_stop_at_module_entry
    import_by_full_name ctx pre bss custom_import b rest scope h :
  Forall2 (identifier_import import_by_full_name) pre bss →
  module_import import_by_full_name custom_import b →
  contexts h !! global_context ctx = Some scope →
  ∃ h',
    import_modules import_by_full_name (SSeq (pre ++ custom_import :: rest)) ctx h
      = (Ok tt, h') ∧
    import_modules import_by_full_name (SSeq (pre ++ [custom_import])) ctx h
      = (Ok tt, h') ∧
    contexts h' !! global_context ctx
      = Some (<[fst b := snd b]> (bind_all (concat bss) scope)) ∧
    resolve_root ctx (fst b) h' = Some (snd b).
Proof.
  intros Hpre (es & module & module_obj & -> & Hmodule & Himport & Hids & ->) Hscope.
  assert (Hrun : ∀ rest',
    import_modules import_by_full_name (SSeq (pre ++ SMap es :: rest')) ctx h
      = (Ok tt, alter_context (global_context ctx)
                  (<[module := VModule module_obj]> ∘ bind_all (concat bss)) h)).
  { intros rest'. unfold import_modules. unfold mbind at 1, M_bind at 1, py_iter. simpl.
    rewrite (import_loop_identifier_entries _ _ pre bss _ h Hpre). simpl.
    unfold mbind, M_bind, subscript, lift_option, as_str, lift_result,
      spec_contains, Dict.contains.
    rewrite Hmodule. simpl. rewrite Himport, Hids. simpl.
    unfold global_add, update_context.
    fold (alter_context (global_context ctx) (<[module := VModule module_obj]>)
            (alter_context (global_context ctx) (bind_all (concat bss)) h)).
    by rewrite alter_context_compose. }
  eexists. split; [apply Hrun|]. split; [apply Hrun|].
  split.
  - by rewrite (contexts_alter_context _ _ _ scope).
  - rewrite (resolve_root_alter_context _ _ _ scope) by done. simpl.
    by rewrite lookup_insert_eq.
Qed.

Lemma imports_stop_at_module_entry_witness :
  ∃ h',
    import_modules Demo.import_by_full_name
      (SSeq [Cases.clamp_entry; Cases.utils_entry; Cases.is_valid_entry])
      Cases.context Demo.schema_heap = (Ok tt, h') ∧
    import_modules Demo.import_by_full_name
      (SSeq [Cases.clamp_entry; Cases.utils_entry])
      Cases.context Demo.schema_heap = (Ok tt, h') ∧
    resolve_root Cases.context "utils" h' = Some (VModule Demo.utils).
Proof.
  destruct (imports_stop_at_module_entry Demo.import_by_full_name Cases.context
              [Cases.clamp_entry]
              [[("clamp", VObject "helpers.clamp"); ("scale", VObject "helpers.scale")]]
              Cases.utils_entry ("utils", VModule Demo.utils)
              [Cases.is_valid_entry] ∅ Demo.schema_heap)
    as (h' & Hrun & Hshort & _ & Hbound).
  - repeat constructor.
    eexists _, "helpers", Demo.helpers, _. repeat split; try reflexivity.
    repeat constructor; eexists _, _; repeat split; reflexivity.
  - eexists _, "utils", Demo.utils. repeat split; reflexivity.
  - reflexivity.
  - exists h'. split; [exact Hrun|]. split; [exact Hshort | exact Hbound].
Defined.





(** ** Stores, entry by entry *)

Lemma load_stores_app ldr fqn specs rest : ∀ acc h,
  load_stores ldr fqn (specs ++ rest) acc h =
    match load_stores ldr fqn specs acc h with
    | (Ok stores, h') => load_stores ldr fqn rest stores h'
    | (Raise e, h') => (Raise e, h')
    end.
Proof.
  induction specs as [|schema_spec specs IH]; intros acc h; [done|].
  simpl. unfold mbind, M_bind.
  destruct (subscript schema_spec ATTRIBUTE_NAME h) as [[value|e] h1]; [|done].
  destruct (as_str value h1) as [[key|e] h2]; [|done].
  destruct (lift_result (get_nested_schema_object ldr fqn key) h2) as [[obj|e] h3]; [|done].
  apply IH.
Qed.

Lemma load_stores_distinct ldr fqn specs kvs : ∀ acc h,
  Forall2 (store_binding ldr fqn) specs kvs →
  NoDup (Dict.keys acc ++ kvs.*1) →
  load_stores ldr fqn specs acc h = (Ok (acc ++ kvs), h).
Proof.
  intros acc h Hall. revert acc h.
  induction Hall as [|schema_spec [key obj] specs kvs [Hname Hobj] _ IH];
    intros acc h Hnd.
  - by rewrite app_nil_r.
  - simpl in *. unfold store_name in Hname.
    destruct schema_spec as [| | | |entries]; try done.
    destruct (Dict.get ATTRIBUTE_NAME entries) as [[| name | | |]|] eqn:Hentry; try done.
    injection Hname as ->.
    unfold mbind, M_bind, subscript, lift_option, lift_result, as_str.
    rewrite Hentry. simpl. rewrite Hobj.
    rewrite dict_set_fresh.
    2:{ apply NoDup_app in Hnd as (_ & Hdisj & _). intros Hin.
        apply (Hdisj key Hin). left. }
    rewrite IH; [by rewrite <- app_assoc|].
    unfold Dict.keys in *. rewrite fmap_app, <- app_assoc. exact Hnd.
Qed.

Section SchemaInit.
Variable import_by_full_name : string -> Result PyModule.
Variable base_init : string -> SchemaLoader -> string -> Result BaseSchemaCollection.
Variables (fqn : string) (ldr : SchemaLoader) (base : BaseSchemaCollection).
Hypothesis Hbase : base_init fqn ldr ATTRIBUTE_DATA_GROUPS = Ok base.

(** Construction up to the stores, when the stores cannot be loaded. *)
Lemma TransformerSchema_init_stores_fail h v store_specs e :
  Dict.get ATTRIBUTE_VERSION (base_spec base) = Some v →
  py_iter (default (SSeq []) (Dict.get ATTRIBUTE_STORES (base_spec base))) h
    = (Ok store_specs, h) →
  load_stores ldr fqn store_specs [] h = (Raise e, h) →
  TransformerSchema_init import_by_full_name base_init fqn ldr h = (Raise e, h).
Proof.
  intros Hversion Hiter Hstores.
  unfold TransformerSchema_init, mbind, M_bind, lift_result. rewrite Hbase.
  unfold subscript at 1. rewrite Hversion. simpl.
  by rewrite optional_attribute_runs, Hiter, Hstores.
Qed.

(** Construction from the imports on, when the stores were loaded. *)
Lemma TransformerSchema_init_imports h v store_specs stores :
  Dict.get ATTRIBUTE_VERSION (base_spec base) = Some v →
  py_iter (default (SSeq []) (Dict.get ATTRIBUTE_STORES (base_spec base))) h
    = (Ok store_specs, h) →
  load_stores ldr fqn store_specs [] h = (Ok stores, h) →
  let import_list := default SNone (Dict.get ATTRIBUTE_IMPORT (base_spec base)) in
  let ctx := {| global_context := length (contexts h);
                local_context := S (length (contexts h)) |} in
  TransformerSchema_init import_by_full_name base_init fqn ldr h =
    match import_modules import_by_full_name import_list ctx (with_new_context h) with
    | (Ok _, h') =>
        (Ok {| fully_qualified_name := fqn; schema_loader := ldr;
               _spec := base_spec base; schema_name := base_name base;
               nested_schema := base_nested_schema base;
               version := v;
               description :=
                 default SNone (Dict.get ATTRIBUTE_DESCRIPTION (base_spec base));
               stores := stores; import_list := import_list;
               schema_context := ctx |}, h')
    | (Raise e, h') => (Raise e, h')
    end.
Proof.
  intros Hversion Hiter Hstores import_list ctx.
  unfold TransformerSchema_init, mbind, M_bind, lift_result. rewrite Hbase.
  unfold subscript at 1. rewrite Hversion. simpl.
  rewrite optional_attribute_runs, Hiter, Hstores, optional_attribute_runs.
  unfold EvaluationContext_new, mbind, M_bind, new_context. simpl.
  rewrite length_app, Nat.add_1_r, <- app_assoc. simpl.
  fold import_list. fold (with_new_context h). fold ctx.
  by destruct (import_modules import_by_full_name import_list ctx (with_new_context h))
    as [[[]|e] h'].
Qed.
End SchemaInit.

(** X5: when the [Stores] entries declare pairwise distinct names that the
    schema loader resolves (and nothing is imported), construction succeeds
    and [stores] holds one schema per entry, in declaration order, each the
    loader's schema for the declared name. *)
Theorem stores_in_declaration_order
    import_by_full_name base_init fqn ldr base v specs kvs h :
  base_init fqn ldr ATTRIBUTE_DATA_GROUPS = Ok base →
  Dict.get ATTRIBUTE_VERSION (base_spec base) = Some v →
  Dict.get ATTRIBUTE_IMPORT (base_spec base) = None →
  Dict.get ATTRIBUTE_STORES (base_spec base) = Some (SSeq specs) →
  Forall2 (store_binding ldr fqn) specs kvs →
  NoDup kvs.*1 →
  ∃ schema h',
    TransformerSchema_init import_by_full_name base_init fqn ldr h = (Ok schema, h') ∧
    stores schema = kvs ∧
    length (stores schema) = length specs ∧
    (∀ i schema_spec, specs !! i = Some schema_spec →
       ∃ name obj, stores schema !! i = Some (name, obj) ∧
                   store_name schema_spec = Some name ∧
                   get_nested_schema_object ldr fqn name = Ok obj ∧
                   Dict.get name (stores schema) = Some obj).
Proof.
  intros Hbase Hversion Himport Hstores Hall Hnd.
  eexists _, _. split.
  { apply (TransformerSchema_init_without_imports _ _ _ _ _ base v specs kvs
             Hbase Hversion Himport); [by rewrite Hstores|].
    by apply (load_stores_distinct ldr fqn specs kvs [] h Hall). }
  simpl. split; [done|]. split; [symmetry; by eapply Forall2_length|].
  intros i schema_spec Hi.
  destruct (Forall2_lookup_l _ _ _ _ _ Hall Hi) as ([name obj] & Hkv & Hname & Hobj).
  exists name, obj. split; [done|]. split; [done|]. split; [done|].
  apply dict_get_NoDup; [done|]. apply list_elem_of_lookup. by exists i.
Qed.

Lemma stores_in_declaration_order_witness :
  ∃ schema h',
    TransformerSchema_init Demo.import_by_full_name
      (fun _ _ _ => Ok (Cases.base (Cases.spec_with
         [("Stores", SSeq [Cases.disk_entry; Cases.memory_entry])])))
      "stream" Cases.loader empty_heap = (Ok schema, h') ∧
    stores schema = [("disk", Cases.disk_schema); ("memory", Demo.memory_schema)].
Proof.
  destruct (stores_in_declaration_order Demo.import_by_full_name
              (fun _ _ _ => Ok (Cases.base (Cases.spec_with
                 [("Stores", SSeq [Cases.disk_entry; Cases.memory_entry])])))
              "stream" Cases.loader
              (Cases.base (Cases.spec_with
                 [("Stores", SSeq [Cases.disk_entry; Cases.memory_entry])]))
              (SStr "2018-03-01") [Cases.disk_entry; Cases.memory_entry]
              [("disk", Cases.disk_schema); ("memory", Demo.memory_schema)] empty_heap)
    as (schema & h' & Hrun & Hstores & _).
  - reflexivity.
  - reflexivity.
  - reflexivity.
  - reflexivity.
  - repeat constructor.
  - apply (bool_decide_unpack _). vm_compute. exact I.
  - exists schema, h'. split; [exact Hrun | exact Hstores].
Defined.

(** X6: a [Stores] entry without a [Name] makes the construction fail with
    [KeyError('Name')], whatever follows it; the failure comes before the
    evaluation context is created, so the heap is left as it was. *)
Theorem store_without_name_fails
    import_by_full_name base_init fqn ldr base v pre entries rest h :
  base_init fqn ldr ATTRIBUTE_DATA_GROUPS = Ok base →
  Dict.get ATTRIBUTE_VERSION (base_spec base) = Some v →
  Dict.get ATTRIBUTE_STORES (base_spec base) = Some (SSeq (pre ++ SMap entries :: rest)) →
  Forall (resolvable ldr fqn) pre →
  Dict.get ATTRIBUTE_NAME entries = None →
  TransformerSchema_init import_by_full_name base_init fqn ldr h
    = (Raise (KeyError ATTRIBUTE_NAME), h).
Proof.
  intros Hbase Hversion Hstores Hpre Hname.
  apply (TransformerSchema_init_stores_fail _ _ _ _ base Hbase h v
           (pre ++ SMap entries :: rest)); [done|by rewrite Hstores|].
  rewrite load_stores_app.
  destruct (load_stores_resolved ldr fqn pre [] h Hpre) as (stores & -> & _).
  simpl. unfold mbind, M_bind, subscript, lift_option. by rewrite Hname.
Qed.

Lemma store_without_name_fails_witness :
  TransformerSchema_init Demo.import_by_full_name
    (fun _ _ _ => Ok (Cases.base (Cases.spec_with
       [("Stores", SSeq [Cases.memory_entry; Cases.nameless_entry; Cases.disk_entry])])))
    "stream" Cases.loader empty_heap
  = (Raise (KeyError "Name"), empty_heap).
Proof.
  apply (store_without_name_fails Demo.import_by_full_name _ "stream" Cases.loader
           (Cases.base (Cases.spec_with
              [("Stores", SSeq [Cases.memory_entry; Cases.nameless_entry;
                                Cases.disk_entry])]))
           (SStr "2018-03-01") [Cases.memory_entry] [("Type", SStr "MemoryStore")]
           [Cases.disk_entry] empty_heap).
  - reflexivity.
  - reflexivity.
  - reflexivity.
  - repeat constructor. exists "memory", Demo.memory_schema. split; reflexivity.
  - reflexivity.
Defined.

(** X7: a [Stores] entry whose name the schema loader cannot resolve makes
    the construction fail with the loader's error, and leaves the heap as it
    was. *)
Theorem unresolved_store_fails
    import_by_full_name base_init fqn ldr base v pre schema_spec name e rest h :
  base_init fqn ldr ATTRIBUTE_DATA_GROUPS = Ok base →
  Dict.get ATTRIBUTE_VERSION (base_spec base) = Some v →
  Dict.get ATTRIBUTE_STORES (base_spec base) = Some (SSeq (pre ++ schema_spec :: rest)) →
  Forall (resolvable ldr fqn) pre →
  store_name schema_spec = Some name →
  get_nested_schema_object ldr fqn name = Raise e →
  TransformerSchema_init import_by_full_name base_init fqn ldr h = (Raise e, h).
Proof.
  intros Hbase Hversion Hstores Hpre Hname Hobj.
  apply (TransformerSchema_init_stores_fail _ _ _ _ base Hbase h v
           (pre ++ schema_spec :: rest)); [done|by rewrite Hstores|].
  rewrite load_stores_app.
  destruct (load_stores_resolved ldr fqn pre [] h Hpre) as (stores & -> & _).
  simpl. unfold store_name in Hname.
  destruct schema_spec as [| | | |entries]; try done.
  destruct (Dict.get ATTRIBUTE_NAME entries) as [[| name' | | |]|] eqn:Hentry; try done.
  injection Hname as ->.
  unfold mbind, M_bind, subscript, lift_option, lift_result, as_str.
  rewrite Hentry. simpl. by rewrite Hobj.
Qed.

Lemma unresolved_store_fails_witness :
  TransformerSchema_init Demo.import_by_full_name
    (fun _ _ _ => Ok (Cases.base (Cases.spec_with
       [("Stores", SSeq [Cases.memory_entry; Cases.disk_entry])])))
    "stream" Demo.loader empty_heap
  = (Raise (KeyError "disk"), empty_heap).
Proof.
  apply (unresolved_store_fails Demo.import_by_full_name _ "stream" Demo.loader
           (Cases.base (Cases.spec_with
              [("Stores", SSeq [Cases.memory_entry; Cases.disk_entry])]))
           (SStr "2018-03-01") [Cases.memory_entry] Cases.disk_entry "disk"
           (KeyError "disk") [] empty_heap).
  - reflexivity.
  - reflexivity.
  - reflexivity.
  - repeat constructor. exists "memory", Demo.memory_schema. split; reflexivity.
  - reflexivity.
  - reflexivity.
Defined.

(** X8: an explicit null is not the same as an absent attribute.  [Stores]
    present with the value [None] makes the construction fail with
    [TypeError] ([None] is not iterable), while [Import] present with the
    value [None] is accepted like an absent one: nothing is imported. *)
Theorem null_stores_fail_null_import_passes
    import_by_full_name base_init fqn ldr base v h :
  base_init fqn ldr ATTRIBUTE_DATA_GROUPS = Ok base →
  Dict.get ATTRIBUTE_VERSION (base_spec base) = Some v →
  (Dict.get ATTRIBUTE_STORES (base_spec base) = Some SNone →
   TransformerSchema_init import_by_full_name base_init fqn ldr h = (Raise TypeError, h)) ∧
  (Dict.get ATTRIBUTE_STORES (base_spec base) = None →
   Dict.get ATTRIBUTE_IMPORT (base_spec base) = Some SNone →
   ∃ schema,
     TransformerSchema_init import_by_full_name base_init fqn ldr h
       = (Ok schema, with_new_context h) ∧
     stores schema = [] ∧ import_list schema = SNone ∧ version schema = v).
Proof.
  intros Hbase Hversion. split.
  - intros Hstores.
    unfold TransformerSchema_init, mbind, M_bind, lift_result. rewrite Hbase.
    unfold subscript at 1. rewrite Hversion. simpl.
    by rewrite optional_attribute_runs, Hstores.
  - intros Hstores Himport.
    rewrite (TransformerSchema_init_imports _ _ _ _ base Hbase h v [] []);
      [|done|by rewrite Hstores|done].
    rewrite Himport. simpl. by eexists.
Qed.

Lemma null_stores_fail_null_import_passes_witness :
  TransformerSchema_init Demo.import_by_full_name
    (fun _ _ _ => Ok (Cases.base (Cases.spec_with [("Stores", SNone)])))
    "stream" Cases.loader empty_heap = (Raise TypeError, empty_heap) ∧
  ∃ schema,
    TransformerSchema_init Demo.import_by_full_name
      (fun _ _ _ => Ok (Cases.base (Cases.spec_with [("Import", SNone)])))
      "stream" Cases.loader empty_heap = (Ok schema, with_new_context empty_heap) ∧
    stores schema = [].
Proof.
  split.
  - apply (proj1 (null_stores_fail_null_import_passes Demo.import_by_full_name _
                    "stream" Cases.loader
                    (Cases.base (Cases.spec_with [("Stores", SNone)]))
                    (SStr "2018-03-01") empty_heap eq_refl eq_refl)).
    reflexivity.
  - destruct (proj2 (null_stores_fail_null_import_passes Demo.import_by_full_name
                       (fun _ _ _ => Ok (Cases.base (Cases.spec_with [("Import", SNone)])))
                       "stream" Cases.loader
                       (Cases.base (Cases.spec_with [("Import", SNone)]))
                       (SStr "2018-03-01") empty_heap eq_refl eq_refl))
      as (schema & Hrun & Hstores & _); [reflexivity | reflexivity |].
    exists schema. split; [exact Hrun | exact Hstores].
Defined.

(** ** What construction leaves untouched *)

Lemma pure_root_step c {A} (m : M A) : pure_step m → root_step c m.
Proof.
  intros Hpure h. exists (fun scope => scope).
  by rewrite Hpure, alter_context_id.
Qed.

Lemma root_step_bind c {A B} (m : M A) (k : A → M B) :
  root_step c m → (∀ a, root_step c (k a)) → root_step c (m ≫= k).
Proof.
  intros Hm Hk h. unfold mbind, M_bind.
  destruct (Hm h) as [f Hf]. destruct (m h) as [[a|e] h1]; simpl in Hf; subst h1.
  - destruct (Hk a (alter_context c f h)) as [g Hg].
    exists (g ∘ f). by rewrite Hg, alter_context_compose.
  - by exists f.
Qed.

Lemma pure_step_bind {A B} (m : M A) (k : A → M B) :
  pure_step m → (∀ a, pure_step (k a)) → pure_step (m ≫= k).
Proof.
  intros Hm Hk h. unfold mbind, M_bind.
  pose proof (Hm h) as Hh. destruct (m h) as [[a|e] h1]; simpl in Hh; subst h1.
  - apply Hk.
  - done.
Qed.

Lemma pure_subscript value key : pure_step (subscript value key).
Proof. intros h. destruct value; try done. simpl. by destruct (Dict.get key entries). Qed.

Lemma pure_as_str value : pure_step (as_str value).
Proof. intros h. by destruct value. Qed.

Lemma pure_py_iter value : pure_step (py_iter value).
Proof. intros h. by destruct value. Qed.

Lemma pure_spec_contains key value : pure_step (spec_contains key value).
Proof. intros h. by destruct value. Qed.

Lemma pure_lift_result {A} (r : Result A) : pure_step (lift_result r).
Proof. by intros h. Qed.

Lemma pure_load_stores ldr fqn specs : ∀ acc, pure_step (load_stores ldr fqn specs acc).
Proof.
  induction specs as [|schema_spec specs IH]; intros acc; [by intros h|].
  simpl. apply pure_step_bind.
  - apply pure_step_bind; [apply pure_subscript|apply pure_as_str].
  - intros key. apply pure_step_bind; [apply pure_lift_result|]. intros obj. apply IH.
Qed.

Lemma root_step_global_add ctx name value :
  root_step (global_context ctx) (global_add ctx name value).
Proof. intros h. by eexists. Qed.

Lemma root_step_for_each c {A} (body : A → M unit) items :
  (∀ item, root_step c (body item)) → root_step c (for_each body items).
Proof.
  intros Hbody. induction items as [|item items IH]; simpl.
  - apply pure_root_step. by intros h.
  - apply root_step_bind; [apply Hbody|]. intros _. apply IH.
Qed.

Lemma root_step_import_identifier ctx module_obj identifier :
  root_step (global_context ctx) (import_identifier ctx module_obj identifier).
Proof.
  unfold import_identifier.
  apply root_step_bind; [apply pure_root_step, pure_as_str|]. intros id.
  apply root_step_bind; [|intros attr; apply root_step_global_add].
  apply pure_root_step. intros h. unfold module_getattr, lift_option.
  by destruct (VObject <$> Dict.get id (module_attrs module_obj)).
Qed.

Lemma root_step_import_loop import_by_full_name ctx entries :
  root_step (global_context ctx) (import_loop import_by_full_name ctx entries).
Proof.
  induction entries as [|custom_import entries IH]; simpl.
  - apply pure_root_step. by intros h.
  - apply root_step_bind.
    { apply pure_root_step, pure_step_bind; [apply pure_subscript|apply pure_as_str]. }
    intros module. apply root_step_bind; [apply pure_root_step, pure_lift_result|].
    intros module_obj. apply root_step_bind; [apply pure_root_step, pure_spec_contains|].
    intros [|]; simpl.
    + apply root_step_bind.
      { apply pure_root_step, pure_step_bind; [apply pure_subscript|apply pure_py_iter]. }
      intros identifiers. apply root_step_bind; [|intros _; apply IH].
      apply root_step_for_each. intros identifier. apply root_step_import_identifier.
    + apply root_step_global_add.
Qed.

Lemma root_step_import_modules import_by_full_name import_list ctx :
  root_step (global_context ctx) (import_modules import_by_full_name import_list ctx).
Proof.
  assert (Hiter : root_step (global_context ctx)
            (py_iter import_list ≫= import_loop import_by_full_name ctx)).
  { apply root_step_bind; [apply pure_root_step, pure_py_iter|].
    intros entries. apply root_step_import_loop. }
  destruct import_list; exact Hiter.
Qed.

(** Construction of a schema either fails before the evaluation context is
    created, with the heap as it was, or creates the two scopes of a fresh
    context and then changes only its global scope. *)
Lemma TransformerSchema_init_frame import_by_full_name base_init fqn ldr h :
  (∃ e, TransformerSchema_init import_by_full_name base_init fqn ldr h = (Raise e, h)) ∨
  (∃ f r,
     TransformerSchema_init import_by_full_name base_init fqn ldr h
       = (r, alter_context (length (contexts h)) f (with_new_context h)) ∧
     ∀ schema, r = Ok schema →
       schema_context schema = {| global_context := length (contexts h);
                                  local_context := S (length (contexts h)) |}).
Proof.
  destruct (base_init fqn ldr ATTRIBUTE_DATA_GROUPS) as [base|e] eqn:Hbase.
  2:{ left. exists e. unfold TransformerSchema_init, mbind, M_bind, lift_result.
      by rewrite Hbase. }
  destruct (Dict.get ATTRIBUTE_VERSION (base_spec base)) as [v|] eqn:Hversion.
  2:{ left. exists (KeyError ATTRIBUTE_VERSION).
      unfold TransformerSchema_init, mbind, M_bind, lift_result. rewrite Hbase.
      unfold subscript, lift_option. by rewrite Hversion. }
  pose proof (pure_py_iter (default (SSeq []) (Dict.get ATTRIBUTE_STORES (base_spec base))) h)
    as Hpure.
  destruct (py_iter (default (SSeq []) (Dict.get ATTRIBUTE_STORES (base_spec base))) h)
    as [[store_specs|e] h1] eqn:Hiter; simpl in Hpure; subst h1.
  2:{ left. exists e. unfold TransformerSchema_init, mbind, M_bind, lift_result.
      rewrite Hbase. unfold subscript at 1. rewrite Hversion. simpl.
      by rewrite optional_attribute_runs, Hiter. }
  pose proof (pure_load_stores ldr fqn store_specs [] h) as Hpure.
  destruct (load_stores ldr fqn store_specs [] h) as [[stores|e] h1] eqn:Hstores;
    simpl in Hpure; subst h1.
  2:{ left. exists e.
      by apply (TransformerSchema_init_stores_fail _ _ _ _ base Hbase h v store_specs). }
  right.
  rewrite (TransformerSchema_init_imports _ _ _ _ base Hbase h v store_specs stores)
    by done.
  destruct (root_step_import_modules import_by_full_name
              (default SNone (Dict.get ATTRIBUTE_IMPORT (base_spec base)))
              {| global_context := length (contexts h);
                 local_context := S (length (contexts h)) |}
              (with_new_context h)) as [f Hf].
  simpl in Hf.
  destruct (import_modules import_by_full_name
              (default SNone (Dict.get ATTRIBUTE_IMPORT (base_spec base)))
              {| global_context := length (contexts h);
                 local_context := S (length (contexts h)) |}
              (with_new_context h)) as [[[]|e] h1]; simpl in Hf; subst h1.
  - eexists f, _. split; [done|]. by intros schema [= <-].
  - eexists f, _. split; [done|]. by intros schema [=].
Qed.

Lemma fresh_context_lookup_old f h (c : loc) scope :
  contexts h !! c = Some scope →
  contexts (alter_context (length (contexts h)) f (with_new_context h)) !! c = Some scope.
Proof.
  intros Hc. unfold alter_context, with_new_context. cbn [contexts].
  unfold loc in *. pose proof (lookup_lt_Some _ _ _ Hc) as Hlt.
  rewrite list_lookup_alter_ne by lia. by apply lookup_app_l_Some.
Qed.

(** X9: building a schema, whether it succeeds or fails, leaves everything
    that was on the heap as it was: every existing scope keeps its bindings,
    and data groups, store and trace are untouched. *)
Theorem schema_construction_preserves_heap import_by_full_name base_init fqn ldr h :
  let h' := snd (TransformerSchema_init import_by_full_name base_init fqn ldr h) in
  (∀ c scope, contexts h !! c = Some scope → contexts h' !! c = Some scope) ∧
  data_groups h' = data_groups h ∧ store h' = store h ∧ trace h' = trace h.
Proof.
  destruct (TransformerSchema_init_frame import_by_full_name base_init fqn ldr h)
    as [[e ->]|(f & r & -> & _)]; simpl.
  - done.
  - split; [|done]. intros c scope Hc.
    by apply (fresh_context_lookup_old f h c scope).
Qed.



Section TransformerFrame.
Variable load_item :
  string -> Result (ItemSchema -> string -> EvaluationContext -> DataGroup).



Lemma build_data_groups_unknown_type identity ctx pre name item_schema e rest : ∀ acc h,
  registered load_item pre →
  load_item (item_type item_schema) = Raise e →
  ∃ built,
    length built = length pre ∧
    build_data_groups load_item identity ctx (pre ++ (name, item_schema) :: rest) acc h
      = (Raise e, with_data_groups h built).
Proof.
  intros acc h Hpre Hfail. revert acc h.
  induction Hpre as [|[name' s'] pre [ctor Hctor] _ IH]; intros acc h; simpl in *.
  - exists []. split; [done|].
    unfold mbind, M_bind, lift_result. rewrite Hfail.
    unfold with_data_groups. rewrite app_nil_r. by destruct h.
  - unfold mbind, M_bind, lift_result, new_data_group. rewrite Hctor. simpl.
    destruct (IH (Dict.set name' (length (data_groups h)) acc)
                {| contexts := contexts h;
                   data_groups := data_groups h ++ [ctor s' identity ctx];
                   store := store h; trace := trace h |}) as (built & Hlen & Hrun).
    exists (ctor s' identity ctx :: built). split; [simpl; by rewrite Hlen|].
    etransitivity; [exact Hrun|].
    unfold with_data_groups. simpl. by rewrite <- app_assoc.
Qed.
End TransformerFrame.

(** X11: a nested schema entry whose type the registry does not know makes
    the construction of the transformer fail with the registry's error for
    the first such entry.  The failure comes before the evaluation context
    is touched: ['identity'] is not bound and nothing is merged; the data
    groups of the entries before it have been allocated, and the existing
    ones, the store and the trace are as they were. *)
Theorem unknown_type_fails_before_context
    load_item schema identity pre name item_schema e rest h :
  nested_schema schema = pre ++ (name, item_schema) :: rest →
  registered load_item pre →
  load_item (item_type item_schema) = Raise e →
  ∃ h',
    Transformer_init load_item schema identity h = (Raise e, h') ∧
    contexts h' = contexts h ∧ store h' = store h ∧ trace h' = trace h ∧
    length (data_groups h') = length (data_groups h) + length pre ∧
    (∀ l dg, data_groups h !! l = Some dg → data_groups h' !! l = Some dg).
Proof.
  intros Hnested Hpre Hfail.
  destruct (build_data_groups_unknown_type load_item identity (schema_context schema)
              pre name item_schema e rest [] h Hpre Hfail) as (built & Hlen & Hrun).
  exists (with_data_groups h built). split.
  { unfold Transformer_init, BaseItemCollection_init, mbind, M_bind. simpl.
    rewrite Hnested. unfold mbind, M_bind in Hrun. by rewrite Hrun. }
  simpl. split; [done|]. split; [done|]. split; [done|].
  split; [by rewrite length_app, Hlen|].
  intros l dg Hl. by apply lookup_app_l_Some.
Qed.

Lemma unknown_type_fails_before_context_witness :
  ∃ h',
    Transformer_init Demo.load_item Cases.unknown_type_schema "user-1" Demo.schema_heap
      = (Raise (UnknownTypeError "WindowAggregate"), h') ∧
    contexts h' = contexts Demo.schema_heap ∧
    resolve Cases.context "identity" h' = None.
Proof.
  destruct (unknown_type_fails_before_context Demo.load_item Cases.unknown_type_schema
              "user-1" [("state", Demo.state_schema)] "window" Cases.window_schema
              (UnknownTypeError "WindowAggregate") [("session", Demo.session_schema)]
              Demo.schema_heap)
    as (h' & Hrun & Hctx & _).
  - reflexivity.
  - repeat constructor. by eexists.
  - reflexivity.
  - exists h'. split; [exact Hrun|]. split; [exact Hctx|].
    unfold resolve. rewrite Hctx. reflexivity.
Defined.

(** X12: a successful construction of a transformer writes only to the
    global scope of the schema's context, and there only the names
    ['identity'] and those of the nested items: every other scope, every
    other binding of the global scope (an imported symbol, say), the store
    and the trace are as they were. *)
Theorem Transformer_init_keeps_other_bindings load_item schema identity t h h' :
  NoDup (Dict.keys (nested_schema schema)) →
  Transformer_init load_item schema identity h = (Ok t, h') →
  store h' = store h ∧ trace h' = trace h ∧
  (∀ c, c ≠ global_context (schema_context schema) →
        contexts h' !! c = contexts h !! c) ∧
  (∀ name, name ≠ "identity" → name ∉ Dict.keys (nested_schema schema) →
           resolve_root (_evaluation_context t) name h'
           = resolve_root (schema_context schema) name h).
Proof.
  intros Hnd Hinit.
  destruct (Transformer_init_inv _ _ _ _ _ _ Hinit) as [built Hall].
  rewrite (Transformer_init_ok _ _ _ built h Hall Hnd) in Hinit.
  injection Hinit as <- <-. simpl.
  split; [done|]. split; [done|]. split.
  - intros c Hc. unfold loc in *. by rewrite list_lookup_alter_ne.
  - intros name Hid Hname. unfold resolve_root. simpl.
    rewrite list_lookup_alter_eq. unfold loc in *.
    destruct (@lookup _ _ _ _ _ (contexts h)) as [scope|]; [|done].
    simpl. unfold seeded_scope. rewrite merge_lookup_other.
    + by rewrite lookup_insert_ne.
    + by rewrite declared_groups_keys.
Qed.

Lemma Transformer_init_keeps_other_bindings_witness :
  ∃ t h',
    Transformer_init Demo.load_item Demo.schema "user-1" Cases.imported_heap = (Ok t, h') ∧
    resolve_root (_evaluation_context t) "clamp" h' = Some (VObject "helpers.clamp").
Proof.
  eexists Demo.transformer, (snd (Transformer_init Demo.load_item Demo.schema "user-1"
                                    Cases.imported_heap)).
  destruct (Transformer_init_keeps_other_bindings Demo.load_item Demo.schema "user-1"
              Demo.transformer Cases.imported_heap
              (snd (Transformer_init Demo.load_item Demo.schema "user-1"
                      Cases.imported_heap)))
    as (_ & _ & _ & Hkeep).
  - apply (bool_decide_unpack _). vm_compute. exact I.
  - reflexivity.
  - split; [reflexivity|]. rewrite Hkeep.
    + reflexivity.
    + discriminate.
    + apply (proj1 (dict_get_None _ _)). reflexivity.
Defined.

(** ** Schemas and transformers together *)






(** ** The data groups of a transformer *)

Lemma getitem_Ok_get (self : Transformer) (item : string) (l : loc) (h : Heap) :
  Transformer_getitem self item h = (Ok l, h) →
  Dict.get item (_nested_items self) = Some l.
Proof.
  intros Hget. destruct (decide (item ∈ Dict.keys (_nested_items self))) as [Hin|Hnot].
  - destruct (getitem_declared self item h Hin) as (dg & _ & Hdg & Hres). congruence.
  - rewrite (getitem_missing self item h Hnot) in Hget. discriminate.
Qed.

(** X15: for a transformer that was built, indexed lookup succeeds exactly
    for the names of the schema's nested entries; any other name raises
    [MissingAttributeError] with the schema's name in the message; and two
    different names never give the same data group. *)
Theorem lookup_succeeds_iff_declared load_item schema identity t h h0 h1 :
  NoDup (Dict.keys (nested_schema schema)) →
  Transformer_init load_item schema identity h = (Ok t, h0) →
  (∀ name, name ∈ Dict.keys (nested_schema schema) ↔
           ∃ l, Transformer_getitem t name h1 = (Ok l, h1)) ∧
  (∀ name, name ∉ Dict.keys (nested_schema schema) →
     Transformer_getitem t name h1 =
       (Raise (MissingAttributeError
                 (name +:+ " not defined in " +:+ schema_name schema)), h1)) ∧
  (∀ a b l, Transformer_getitem t a h1 = (Ok l, h1) →
            Transformer_getitem t b h1 = (Ok l, h1) → a = b).
Proof.
  intros Hnd Hinit.
  destruct (Transformer_init_inv _ _ _ _ _ _ Hinit) as [built Hall].
  rewrite (Transformer_init_ok _ _ _ built h Hall Hnd) in Hinit.
  injection Hinit as <- _.
  set (ls := seq (length (data_groups h)) (length (nested_schema schema))).
  set (t := {| _schema := schema; _identity := identity |}).
  assert (Hkeys : Dict.keys (_nested_items t) = Dict.keys (nested_schema schema))
    by apply declared_groups_keys.
  assert (Hmissing : ∀ name, name ∉ Dict.keys (nested_schema schema) →
     Transformer_getitem t name h1 =
       (Raise (MissingAttributeError
                 (name +:+ " not defined in " +:+ schema_name schema)), h1)).
  { intros name Hnot. apply (getitem_missing t name h1). by rewrite Hkeys. }
  split; [|split; [exact Hmissing|]].
  - intros name. split.
    + intros Hin. rewrite <- Hkeys in Hin.
      destruct (getitem_declared t name h1 Hin) as (l & _ & _ & Hres). by exists l.
    + intros [l Hres].
      destruct (decide (name ∈ Dict.keys (nested_schema schema))) as [|Hnot]; [done|].
      rewrite (Hmissing name Hnot) in Hres. discriminate.
  - intros a b l Ha Hb.
    apply getitem_Ok_get, dict_get_elem, list_elem_of_lookup in Ha as [i Hi].
    apply getitem_Ok_get, dict_get_elem, list_elem_of_lookup in Hb as [j Hj].
    apply lookup_zip_Some in Hi as [Hia Hil]. apply lookup_zip_Some in Hj as [Hjb Hjl].
    assert (i = j) as ->.
    { eapply NoDup_lookup; [apply (NoDup_seq (length (data_groups h))
                                     (length (nested_schema schema)))|done|done]. }
    congruence.
Qed.

Lemma lookup_succeeds_iff_declared_witness :
  (∃ l, Transformer_getitem Demo.transformer "state" Demo.transformer_heap
        = (Ok l, Demo.transformer_heap)) ∧
  Transformer_getitem Demo.transformer "purchases" Demo.transformer_heap
    = (Raise (MissingAttributeError "purchases not defined in stream"),
       Demo.transformer_heap).
Proof.
  destruct (lookup_succeeds_iff_declared Demo.load_item Demo.schema "user-1"
              Demo.transformer Demo.schema_heap Demo.transformer_heap
              Demo.transformer_heap)
    as (Hdeclared & Hmissing & _).
  - apply (bool_decide_unpack _). vm_compute. exact I.
  - reflexivity.
  - split.
    + apply Hdeclared. apply (proj1 (dict_contains_keys _ _)). reflexivity.
    + apply Hmissing. apply (proj1 (dict_get_None _ _)). reflexivity.
Defined.

(** X16: two transformers built one after the other have data groups of
    their own, also when they are built from one schema and share its
    context: no data group belongs to both, the construction of the second
    leaves the data groups of the first as they were, and [finalize()] on
    the first makes no call on a data group of the second. *)
Theorem transformers_have_their_own_groups
    load_item schema1 schema2 id1 id2 t1 t2 h h1 h2 h3 :
  NoDup (Dict.keys (nested_schema schema1)) →
  NoDup (Dict.keys (nested_schema schema2)) →
  Transformer_init load_item schema1 id1 h = (Ok t1, h1) →
  Transformer_init load_item schema2 id2 h1 = (Ok t2, h2) →
  (∀ name1 l1 name2 l2,
     (name1, l1) ∈ _nested_items t1 → (name2, l2) ∈ _nested_items t2 → l1 ≠ l2) ∧
  (∀ name1 l1, (name1, l1) ∈ _nested_items t1 →
     is_Some (data_groups h1 !! l1) ∧ data_groups h2 !! l1 = data_groups h1 !! l1) ∧
  ∃ h4 calls,
    Transformer_finalize t1 h3 = (Ok tt, h4) ∧
    trace h4 = trace h3 ++ map Finalize calls ∧
    (∀ name2 l2, (name2, l2) ∈ _nested_items t2 → l2 ∉ calls).
Proof.
  intros Hnd1 Hnd2 Hinit1 Hinit2.
  destruct (Transformer_init_inv _ _ _ _ _ _ Hinit1) as [built1 Hall1].
  destruct (Transformer_init_inv _ _ _ _ _ _ Hinit2) as [built2 Hall2].
  rewrite (Transformer_init_ok _ _ _ built1 h Hall1 Hnd1) in Hinit1.
  rewrite (Transformer_init_ok _ _ _ built2 h1 Hall2 Hnd2) in Hinit2.
  injection Hinit1 as <- <-. injection Hinit2 as <- <-.
  pose proof (construct_all_length _ _ _ _ _ Hall1) as Hlen1.
  unfold _nested_items, Transformer_finalize. simpl.
  set (n := length (data_groups h)) in *.
  set (k1 := length (nested_schema schema1)) in *.
  set (k2 := length (nested_schema schema2)) in *.
  assert (Hloc1 : ∀ name l, (name, l) ∈ zip (Dict.keys (nested_schema schema1)) (seq n k1) →
            (n ≤ l < n + k1)%nat).
  { intros name l Hin. apply elem_of_zip_r in Hin.
    apply list_elem_of_lookup in Hin as [i Hi]. apply lookup_seq in Hi. lia. }
  assert (Hloc2 : ∀ name l,
            (name, l) ∈ zip (Dict.keys (nested_schema schema2))
                            (seq (length (data_groups h ++ built1)) k2) →
            (n + k1 ≤ l)%nat).
  { intros name l Hin. apply elem_of_zip_r in Hin.
    apply list_elem_of_lookup in Hin as [i Hi]. apply lookup_seq in Hi.
    rewrite length_app in Hi. fold n in Hi. lia. }
  split; [|split].
  - intros name1 l1 name2 l2 Hin1 Hin2.
    apply Hloc1 in Hin1. apply Hloc2 in Hin2. lia.
  - intros name1 l1 Hin1. apply Hloc1 in Hin1. split.
    + apply lookup_lt_is_Some. rewrite length_app. fold n. lia.
    + apply lookup_app_l. rewrite length_app. fold n. lia.
  - destruct (finalize_all_runs (seq n k1) h3) as (h4 & Hrun & Htr & _).
    exists h4, (seq n k1). split.
    { rewrite <- Hrun. f_equal. apply (declared_groups_values (nested_schema schema1) n). }
    split; [exact Htr|].
    intros name2 l2 Hin2 Hcall. apply Hloc2 in Hin2.
    apply list_elem_of_lookup in Hcall as [i Hi]. apply lookup_seq in Hi. lia.
Qed.

Lemma transformers_have_their_own_groups_witness :
  (∀ name1 l1 name2 l2,
     (name1, l1) ∈ _nested_items Demo.transformer →
     (name2, l2) ∈ _nested_items Cases.second_transformer → l1 ≠ l2) ∧
  ∃ h4 calls,
    Transformer_finalize Demo.transformer Cases.two_transformers_heap = (Ok tt, h4) ∧
    trace h4 = trace Cases.two_transformers_heap ++ map Finalize calls.
Proof.
  destruct (transformers_have_their_own_groups Demo.load_item Demo.schema Demo.schema
              "user-1" "user-2" Demo.transformer Cases.second_transformer
              Demo.schema_heap Demo.transformer_heap Cases.two_transformers_heap
              Cases.two_transformers_heap)
    as (Hdisjoint & _ & h4 & calls & Hrun & Htrace & _).
  - apply (bool_decide_unpack _). vm_compute. exact I.
  - apply (bool_decide_unpack _). vm_compute. exact I.
  - reflexivity.
  - reflexivity.
  - split; [exact Hdisjoint|]. exists h4, calls. split; [exact Hrun | exact Htrace].
Defined.

(** ** Two more failures of the imports *)




